(** * flame: users and addresses over a relational store

    A shallow embedding of [src/flame/app.py]: the two SQLAlchemy models
    ([Usuario], [Endereco]), the Pydantic request schemas, the store the
    session talks to, and the nine route handlers.

    Conventions.
    - A table is the list of its rows in insertion order; a query without
      ORDER BY scans the table in that order.  A rewritten row keeps its
      place, as in a store that scans by primary key; PostgreSQL moves it,
      so the order of creation is claimed only of histories that rewrite
      and remove no user.
    - [Integer] columns and Python [int] are [Z]; [String] columns are
      [string], the UTF-8 bytes of the text, and lengths count characters;
      a nullable column is an [option]; a [DateTime] is the clock reading,
      a [Z].
    - SQL [=] on a [String] column is exact string equality ([String.eqb]).
    - A handler runs in a session: a function from the store to the
      exception it raises or the value it returns, and the store it leaves
      committed.  Every write of the source is followed by its commit, so a
      write and its commit are one step; a write the store refuses is
      rolled back, but the id the counter had given it is not given
      again. *)

From Stdlib Require Import ZArith List String Bool Lia Sorted.
Import ListNotations.

Local Open Scope string_scope.
Local Open Scope Z_scope.
Local Open Scope list_scope.

(** ** Models (SQLAlchemy) *)

Module Usuario.
Record t : Type := mk {
  id : Z;
  nome : string;
  email : string;
  criado_em : Z
}.
End Usuario.

Module Endereco.
Record t : Type := mk {
  id : Z;
  rua : string;
  cidade : string;
  cep : option string;
  usuario_id : Z;
  criado_em : Z
}.
End Endereco.

(** ** Schemas (Pydantic) *)

Module EnderecoBase.
Record t : Type := mk {
  rua : string;
  cidade : string;
  cep : option string
}.
End EnderecoBase.

Module UsuarioCreate.
Record t : Type := mk {
  nome : string;
  email : string
}.
End UsuarioCreate.

(** [UsuarioResponse] and [EnderecoResponse] are read off the rows
    ([from_attributes]) and carry the very same fields, so a row stands for
    its response.  [UsuarioComEnderecos] adds the [enderecos] relationship. *)
Module UsuarioComEnderecos.
Record t : Type := mk {
  usuario : Usuario.t;
  enderecos : list Endereco.t
}.
End UsuarioComEnderecos.

(** ** The store *)

(** The two tables and their AUTO_INCREMENT counters. *)
Record BD : Type := mkBD {
  usuarios : list Usuario.t;
  enderecos : list Endereco.t;
  seq_usuarios : Z;
  seq_enderecos : Z
}.

Definition bd_vazio : BD := mkBD [] [] 1 1.

(** ** Sessions *)

Inductive Excecao : Type :=
| HTTPException (status_code : Z) (detail : string)
| IntegrityError
| ProgrammingError
| InvalidRequestError.

Definition Sessao (A : Type) : Type := BD -> (Excecao + A) * BD.

Definition ret {A} (a : A) : Sessao A := fun db => (inr a, db).

Definition bind {A B} (m : Sessao A) (k : A -> Sessao B) : Sessao B :=
  fun db =>
    match m db with
    | (inl e, db') => (inl e, db')
    | (inr a, db') => k a db'
    end.

Definition raise {A} (e : Excecao) : Sessao A := fun db => (inl e, db).

Notation "x <- m ;; k" := (bind m (fun x => k))
  (at level 61, m at next level, right associativity).
Notation "m ;;; k" := (bind m (fun _ => k))
  (at level 61, right associativity).

(** *** Queries *)

(** [.first()]: the first row of the result, or [None]. *)
Definition first {A} (linhas : list A) : option A := hd_error linhas.

(** [db.query(Usuario).filter(p).first()] *)
Definition query_usuario_first (p : Usuario.t -> bool) : Sessao (option Usuario.t) :=
  fun db => (inr (first (filter p (usuarios db))), db).

(** [db.query(Endereco).filter(p).first()] *)
Definition query_endereco_first (p : Endereco.t -> bool) : Sessao (option Endereco.t) :=
  fun db => (inr (first (filter p (enderecos db))), db).

(** The largest integer every store takes for an OFFSET or a LIMIT, that of
    a signed 64-bit one (PostgreSQL's [bigint]; MySQL goes on to the
    unsigned one). *)
Definition MAX_BIGINT : Z := 9223372036854775807.

(** [.offset(skip).limit(limit).all()].  The two numbers reach the store as
    they are.  The store refuses a negative OFFSET or LIMIT (to MySQL
    [LIMIT -1] is a syntax error, to PostgreSQL "LIMIT must not be
    negative") and one beyond its integers: the query raises. *)
Definition offset_limit_all {A} (skip limit : Z) (linhas : list A) : Excecao + list A :=
  if (skip <? 0) || (limit <? 0) || (MAX_BIGINT <? skip) || (MAX_BIGINT <? limit)
  then inl ProgrammingError
  else inr (firstn (Z.to_nat limit) (skipn (Z.to_nat skip) linhas)).

Definition query_usuarios_all (skip limit : Z) : Sessao (list Usuario.t) :=
  fun db =>
    match offset_limit_all skip limit (usuarios db) with
    | inl e => (inl e, db)
    | inr l => (inr l, db)
    end.

(** The [enderecos] relationship of a loaded [Usuario]: the rows of
    [enderecos] whose foreign key is the user's id. *)
Definition enderecos_de (usuario_id : Z) (db : BD) : list Endereco.t :=
  filter (fun e => Endereco.usuario_id e =? usuario_id) (enderecos db).

Definition relationship_enderecos (u : Usuario.t) : Sessao (list Endereco.t) :=
  fun db => (inr (enderecos_de (Usuario.id u) db), db).

(** *** Writes: [db.add] / attribute assignment / [db.delete], then [db.commit] *)

(** INSERT INTO usuarios.  [email] is [unique=True]; [id] comes from the
    counter and [criado_em] from the column default.  The counter moves
    before the unique index is checked: a refused INSERT stores no row and
    still uses up its id. *)
Definition insert_usuario (agora : Z) (nome email : string) : Sessao Z :=
  fun db =>
    if existsb (fun u => Usuario.email u =? email)%string (usuarios db)
    then (inl IntegrityError,
          mkBD (usuarios db) (enderecos db) (seq_usuarios db + 1) (seq_enderecos db))
    else
      let novo := Usuario.mk (seq_usuarios db) nome email agora in
      (inr (Usuario.id novo),
       mkBD (usuarios db ++ [novo]) (enderecos db)
            (seq_usuarios db + 1) (seq_enderecos db)).

(** UPDATE usuarios SET nome, email WHERE id = usuario_id *)
Definition set_usuario (usuario_id : Z) (nome email : string) (u : Usuario.t) : Usuario.t :=
  if (Usuario.id u =? usuario_id)
  then Usuario.mk (Usuario.id u) nome email (Usuario.criado_em u)
  else u.

Definition update_usuario (usuario_id : Z) (nome email : string) : Sessao unit :=
  fun db =>
    if existsb (fun u => (Usuario.email u =? email)%string && negb (Usuario.id u =? usuario_id))
               (usuarios db)
    then (inl IntegrityError, db)
    else
      (inr tt,
       mkBD (map (set_usuario usuario_id nome email) (usuarios db)) (enderecos db)
            (seq_usuarios db) (seq_enderecos db)).

(** DELETE of a user: the relationship's [cascade="all, delete-orphan"] (and
    the foreign key's [ondelete="CASCADE"]) removes the user's addresses. *)
Definition delete_usuario (u : Usuario.t) : Sessao unit :=
  fun db =>
    (inr tt,
     mkBD (filter (fun x => negb (Usuario.id x =? Usuario.id u)) (usuarios db))
          (filter (fun e => negb (Endereco.usuario_id e =? Usuario.id u)) (enderecos db))
          (seq_usuarios db) (seq_enderecos db)).

(** [db.refresh(usuario)]: the row is read again by primary key. *)
Definition refresh_usuario (usuario_id : Z) : Sessao Usuario.t :=
  fun db =>
    match first (filter (fun u => Usuario.id u =? usuario_id) (usuarios db)) with
    | Some u => (inr u, db)
    | None => (inl InvalidRequestError, db)
    end.

(** INSERT INTO enderecos.  [usuario_id] is a foreign key to [usuarios.id];
    here too a refused INSERT uses up its id. *)
Definition insert_endereco (agora : Z) (rua cidade : string) (cep : option string)
    (usuario_id : Z) : Sessao Z :=
  fun db =>
    if existsb (fun u => Usuario.id u =? usuario_id) (usuarios db)
    then
      let novo := Endereco.mk (seq_enderecos db) rua cidade cep usuario_id agora in
      (inr (Endereco.id novo),
       mkBD (usuarios db) (enderecos db ++ [novo])
            (seq_usuarios db) (seq_enderecos db + 1))
    else (inl IntegrityError,
          mkBD (usuarios db) (enderecos db) (seq_usuarios db) (seq_enderecos db + 1)).

(** UPDATE enderecos SET rua, cidade, cep WHERE id = endereco_id *)
Definition set_endereco (endereco_id : Z) (rua cidade : string) (cep : option string)
    (e : Endereco.t) : Endereco.t :=
  if (Endereco.id e =? endereco_id)
  then Endereco.mk (Endereco.id e) rua cidade cep (Endereco.usuario_id e) (Endereco.criado_em e)
  else e.

Definition update_endereco (endereco_id : Z) (rua cidade : string) (cep : option string)
    : Sessao unit :=
  fun db =>
    (inr tt,
     mkBD (usuarios db) (map (set_endereco endereco_id rua cidade cep) (enderecos db))
          (seq_usuarios db) (seq_enderecos db)).

(** DELETE FROM enderecos WHERE id = e.id *)
Definition delete_endereco (e : Endereco.t) : Sessao unit :=
  fun db =>
    (inr tt,
     mkBD (usuarios db)
          (filter (fun x => negb (Endereco.id x =? Endereco.id e)) (enderecos db))
          (seq_usuarios db) (seq_enderecos db)).

Definition refresh_endereco (endereco_id : Z) : Sessao Endereco.t :=
  fun db =>
    match first (filter (fun e => Endereco.id e =? endereco_id) (enderecos db)) with
    | Some e => (inr e, db)
    | None => (inl InvalidRequestError, db)
    end.

(** ** Route handlers *)

Definition email_ja_cadastrado : Excecao := HTTPException 400 "Email já cadastrado".
Definition usuario_nao_encontrado : Excecao := HTTPException 404 "Usuário não encontrado".
Definition endereco_nao_encontrado : Excecao := HTTPException 404 "Endereço não encontrado".

Definition criar_usuario (agora : Z) (usuario : UsuarioCreate.t) : Sessao Usuario.t :=
  usuario_existente <-
    query_usuario_first (fun u => Usuario.email u =? UsuarioCreate.email usuario)%string ;;
  match usuario_existente with
  | Some _ => raise email_ja_cadastrado
  | None =>
      novo_usuario <-
        insert_usuario agora (UsuarioCreate.nome usuario) (UsuarioCreate.email usuario) ;;
      refresh_usuario novo_usuario
  end.

Definition listar_usuarios (skip limit : Z) : Sessao (list Usuario.t) :=
  query_usuarios_all skip limit.

Definition obter_usuario (usuario_id : Z) : Sessao UsuarioComEnderecos.t :=
  usuario <- query_usuario_first (fun u => Usuario.id u =? usuario_id) ;;
  match usuario with
  | None => raise usuario_nao_encontrado
  | Some u =>
      es <- relationship_enderecos u ;;
      ret (UsuarioComEnderecos.mk u es)
  end.

Definition atualizar_usuario (usuario_id : Z) (usuario : UsuarioCreate.t) : Sessao Usuario.t :=
  usuario_db <- query_usuario_first (fun u => Usuario.id u =? usuario_id) ;;
  match usuario_db with
  | None => raise usuario_nao_encontrado
  | Some u =>
      email_existente <-
        query_usuario_first
          (fun x => (Usuario.email x =? UsuarioCreate.email usuario)%string
                    && negb (Usuario.id x =? usuario_id)) ;;
      match email_existente with
      | Some _ => raise email_ja_cadastrado
      | None =>
          update_usuario (Usuario.id u)
            (UsuarioCreate.nome usuario) (UsuarioCreate.email usuario) ;;;
          refresh_usuario (Usuario.id u)
      end
  end.

Definition deletar_usuario (usuario_id : Z) : Sessao unit :=
  usuario <- query_usuario_first (fun u => Usuario.id u =? usuario_id) ;;
  match usuario with
  | None => raise usuario_nao_encontrado
  | Some u => delete_usuario u
  end.

Definition criar_endereco (agora : Z) (usuario_id : Z) (endereco : EnderecoBase.t)
    : Sessao Endereco.t :=
  usuario <- query_usuario_first (fun u => Usuario.id u =? usuario_id) ;;
  match usuario with
  | None => raise usuario_nao_encontrado
  | Some _ =>
      novo_endereco <-
        insert_endereco agora (EnderecoBase.rua endereco) (EnderecoBase.cidade endereco)
          (EnderecoBase.cep endereco) usuario_id ;;
      refresh_endereco novo_endereco
  end.

Definition obter_enderecos_usuario (usuario_id : Z) : Sessao (list Endereco.t) :=
  usuario <- query_usuario_first (fun u => Usuario.id u =? usuario_id) ;;
  match usuario with
  | None => raise usuario_nao_encontrado
  | Some u => relationship_enderecos u
  end.

Definition atualizar_endereco (endereco_id : Z) (endereco : EnderecoBase.t)
    : Sessao Endereco.t :=
  endereco_db <- query_endereco_first (fun e => Endereco.id e =? endereco_id) ;;
  match endereco_db with
  | None => raise endereco_nao_encontrado
  | Some e =>
      update_endereco (Endereco.id e) (EnderecoBase.rua endereco)
        (EnderecoBase.cidade endereco) (EnderecoBase.cep endereco) ;;;
      refresh_endereco (Endereco.id e)
  end.

Definition deletar_endereco (endereco_id : Z) : Sessao unit :=
  endereco <- query_endereco_first (fun e => Endereco.id e =? endereco_id) ;;
  match endereco with
  | None => raise endereco_nao_encontrado
  | Some e => delete_endereco e
  end.

(** ** The HTTP surface *)

(** What the caller sees: the route's success status with the body, or an
    error status with its detail. *)
Inductive Resposta (A : Type) : Type :=
| Ok (status_code : Z) (corpo : A)
| Erro (status_code : Z) (detail : string).
Arguments Ok {A} _ _.
Arguments Erro {A} _ _.

(** [@app.<method>(path, status_code=...)] around a handler given a session
    by [get_db].  An [HTTPException] becomes its own status; any other
    exception is an unhandled fault, HTTP 500.  Either way [get_db] closes
    the session, and the store is what the handler left committed. *)
Definition resposta_de_excecao {A} (e : Excecao) : Resposta A :=
  match e with
  | HTTPException s d => Erro s d
  | _ => Erro 500 "Internal Server Error"
  end.

Definition rota {A} (status_code : Z) (handler : Sessao A) (db : BD) : Resposta A * BD :=
  match handler db with
  | (inr corpo, db') => (Ok status_code corpo, db')
  | (inl e, db') => (resposta_de_excecao e, db')
  end.

Definition POST_usuarios agora usuario := rota 201 (criar_usuario agora usuario).
Definition GET_usuarios skip limit := rota 200 (listar_usuarios skip limit).
Definition GET_usuario usuario_id := rota 200 (obter_usuario usuario_id).
Definition PUT_usuario usuario_id usuario := rota 200 (atualizar_usuario usuario_id usuario).
Definition DELETE_usuario usuario_id := rota 204 (deletar_usuario usuario_id).
Definition POST_enderecos agora usuario_id endereco :=
  rota 201 (criar_endereco agora usuario_id endereco).
Definition GET_enderecos usuario_id := rota 200 (obter_enderecos_usuario usuario_id).
Definition PUT_endereco endereco_id endereco :=
  rota 200 (atualizar_endereco endereco_id endereco).
Definition DELETE_endereco endereco_id := rota 204 (deletar_endereco endereco_id).

(** *** Request bodies

    A JSON body as [json.loads] gives it, and the validation of an
    [EnderecoBase] out of it: the model reads the keys it declares and, by
    Pydantic's default, ignores every other key. *)

Unset Elimination Schemes.
Inductive JSON : Type :=
| JNull
| JBool (b : bool)
| JInt (n : Z)
| JStr (s : string)
| JArr (itens : list JSON)
| JObj (campos : list (string * JSON)).
Set Elimination Schemes.

Fixpoint dict_get (k : string) (campos : list (string * JSON)) : option JSON :=
  match campos with
  | [] => None
  | (k', v) :: resto => if (k' =? k)%string then Some v else dict_get k resto
  end.

(** The characters of a text.  A [string] holds the text's UTF-8 bytes, and
    each character is one byte that is not a continuation byte (10xxxxxx,
    128 to 191) followed by continuation bytes only. *)
Definition continuacao (c : Ascii.ascii) : bool :=
  (128 <=? Ascii.nat_of_ascii c)%nat && (Ascii.nat_of_ascii c <? 192)%nat.

Fixpoint caracteres (s : string) : nat :=
  match s with
  | EmptyString => 0%nat
  | String c resto => ((if continuacao c then 0 else 1) + caracteres resto)%nat
  end.

(** [min_length] and [max_length] count characters. *)
Definition comprimento_ok (min_length max_length : nat) (s : string) : bool :=
  (Nat.leb min_length (caracteres s)) && (Nat.leb (caracteres s) max_length).

(** [str = Field(..., min_length, max_length)] *)
Definition campo_str (min_length max_length : nat) (v : option JSON) : option string :=
  match v with
  | Some (JStr s) => if comprimento_ok min_length max_length s then Some s else None
  | _ => None
  end.

(** [Optional[str] = Field(None, max_length)]: [None] inside is a refused
    value, [Some None] an absent or null field. *)
Definition campo_str_opcional (max_length : nat) (v : option JSON) : option (option string) :=
  match v with
  | None | Some JNull => Some None
  | Some (JStr s) => if comprimento_ok 0 max_length s then Some (Some s) else None
  | Some _ => None
  end.

Definition validar_EnderecoBase (campos : list (string * JSON)) : option EnderecoBase.t :=
  match campo_str 1 255 (dict_get "rua" campos),
        campo_str 1 100 (dict_get "cidade" campos),
        campo_str_opcional 10 (dict_get "cep" campos) with
  | Some rua, Some cidade, Some cep => Some (EnderecoBase.mk rua cidade cep)
  | _, _, _ => None
  end.

(** POST /usuarios/{usuario_id}/enderecos as the framework runs it: the id
    comes from the path, the [EnderecoBase] from the body; a body that does
    not validate is answered 422 before the handler runs. *)
Definition POST_enderecos_json (agora usuario_id : Z) (corpo : JSON) (db : BD)
    : Resposta Endereco.t * BD :=
  match corpo with
  | JObj campos =>
      match validar_EnderecoBase campos with
      | Some endereco => POST_enderecos agora usuario_id endereco db
      | None => (Erro 422 "Unprocessable Entity", db)
      end
  | _ => (Erro 422 "Unprocessable Entity", db)
  end.

(** PUT /enderecos/{endereco_id}, likewise. *)
Definition PUT_endereco_json (endereco_id : Z) (corpo : JSON) (db : BD)
    : Resposta Endereco.t * BD :=
  match corpo with
  | JObj campos =>
      match validar_EnderecoBase campos with
      | Some endereco => PUT_endereco endereco_id endereco db
      | None => (Erro 422 "Unprocessable Entity", db)
      end
  | _ => (Erro 422 "Unprocessable Entity", db)
  end.

(** GET /usuarios with its query parameters, each optional:
    [skip: int = 0, limit: int = 10]. *)
Definition GET_usuarios_query (skip limit : option Z) (db : BD)
    : Resposta (list Usuario.t) * BD :=
  GET_usuarios (match skip with Some n => n | None => 0 end)
               (match limit with Some n => n | None => 10 end) db.

(** *** The application as a whole *)

Inductive Requisicao : Type :=
| PostUsuarios (agora : Z) (usuario : UsuarioCreate.t)
| GetUsuarios (skip limit : Z)
| GetUsuario (usuario_id : Z)
| PutUsuario (usuario_id : Z) (usuario : UsuarioCreate.t)
| DeleteUsuario (usuario_id : Z)
| PostEnderecos (agora : Z) (usuario_id : Z) (endereco : EnderecoBase.t)
| GetEnderecos (usuario_id : Z)
| PutEndereco (endereco_id : Z) (endereco : EnderecoBase.t)
| DeleteEndereco (endereco_id : Z)
| GetRaiz.

(** The store after a request has been served. *)
Definition atender (r : Requisicao) (db : BD) : BD :=
  match r with
  | PostUsuarios agora usuario => snd (POST_usuarios agora usuario db)
  | GetUsuarios skip limit => snd (GET_usuarios skip limit db)
  | GetUsuario usuario_id => snd (GET_usuario usuario_id db)
  | PutUsuario usuario_id usuario => snd (PUT_usuario usuario_id usuario db)
  | DeleteUsuario usuario_id => snd (DELETE_usuario usuario_id db)
  | PostEnderecos agora usuario_id endereco =>
      snd (POST_enderecos agora usuario_id endereco db)
  | GetEnderecos usuario_id => snd (GET_enderecos usuario_id db)
  | PutEndereco endereco_id endereco => snd (PUT_endereco endereco_id endereco db)
  | DeleteEndereco endereco_id => snd (DELETE_endereco endereco_id db)
  | GetRaiz => db
  end.

(** The store after a history of requests, served one after the other. *)
Definition executar (historia : list Requisicao) (db : BD) : BD :=
  fold_left (fun db r => atender r db) historia db.



(** The requests that create the users of a list, in its order, and the rows
    they become when the counter stands at [n]. *)
Definition criar_todos (novos : list (Z * UsuarioCreate.t)) : list Requisicao :=
  map (fun x => PostUsuarios (fst x) (snd x)) novos.

Fixpoint numerar (n : Z) (novos : list (Z * UsuarioCreate.t)) : list Usuario.t :=
  match novos with
  | [] => []
  | (agora, usuario) :: resto =>
      Usuario.mk n (UsuarioCreate.nome usuario) (UsuarioCreate.email usuario) agora
        :: numerar (n + 1) resto
  end.

(** A request other than PUT and DELETE /usuarios/{id}: it rewrites and
    removes no row of [usuarios].  [listar_usuarios] asks for no order, so
    the users come as the store scans the table, and a store may move a row
    it rewrites and give the room of a removed row to a later one. *)
Definition so_acrescenta_usuarios (r : Requisicao) : bool :=
  match r with
  | PutUsuario _ _ => false
  | DeleteUsuario _ => false
  | _ => true
  end.

(** *** What the schema guarantees of a store *)

(** [ForeignKey("usuarios.id")] on [Endereco.usuario_id]. *)
Definition fk_usuario_id (db : BD) : Prop :=
  forall e, In e (enderecos db) ->
    exists u, In u (usuarios db) /\ Usuario.id u = Endereco.usuario_id e.

(** The constraints of the two tables: primary keys, the unique [email],
    the foreign key, and counters above every id in use. *)
Record bd_ok (db : BD) : Prop := mk_bd_ok {
  pk_usuarios : NoDup (map Usuario.id (usuarios db));
  pk_enderecos : NoDup (map Endereco.id (enderecos db));
  uq_email : NoDup (map Usuario.email (usuarios db));
  fk_enderecos : fk_usuario_id db;
  seq_usuarios_acima : forall u, In u (usuarios db) -> Usuario.id u < seq_usuarios db;
  seq_enderecos_acima : forall e, In e (enderecos db) -> Endereco.id e < seq_enderecos db
}.

Definition email_cadastrado (email : string) (db : BD) : Prop :=
  exists u, In u (usuarios db) /\ Usuario.email u = email.

Definition usuario_existe (usuario_id : Z) (db : BD) : Prop :=
  exists u, In u (usuarios db) /\ Usuario.id u = usuario_id.

Definition endereco_existe (endereco_id : Z) (db : BD) : Prop :=
  exists e, In e (enderecos db) /\ Endereco.id e = endereco_id.

(** *** Two requests to create a user, interleaved

    [criar_usuario] talks to the store twice: the SELECT of its check, then
    the INSERT of its commit.  Each is one step of the store; between the
    two, another request may take its own steps. *)

Definition criar_usuario_consulta (usuario : UsuarioCreate.t) : Sessao (option Usuario.t) :=
  query_usuario_first (fun u => Usuario.email u =? UsuarioCreate.email usuario)%string.

Definition criar_usuario_gravacao (agora : Z) (usuario : UsuarioCreate.t)
    (usuario_existente : option Usuario.t) : Sessao Usuario.t :=
  match usuario_existente with
  | Some _ => raise email_ja_cadastrado
  | None =>
      novo_usuario <-
        insert_usuario agora (UsuarioCreate.nome usuario) (UsuarioCreate.email usuario) ;;
      refresh_usuario novo_usuario
  end.

Inductive Fase : Type :=
| Inicio
| Verificado (usuario_existente : option Usuario.t)
| Fim (resposta : Resposta Usuario.t).

Definition passo_criar_usuario (agora : Z) (usuario : UsuarioCreate.t) (f : Fase) (db : BD)
    : Fase * BD :=
  match f with
  | Inicio =>
      match criar_usuario_consulta usuario db with
      | (inr x, db') => (Verificado x, db')
      | (inl e, db') => (Fim (resposta_de_excecao e), db')
      end
  | Verificado x =>
      let (r, db') := rota 201 (criar_usuario_gravacao agora usuario x) db in
      (Fim r, db')
  | Fim r => (Fim r, db)
  end.

(** A schedule names, step by step, which of the two requests moves:
    [false] the first, [true] the second. *)
Fixpoint corrida (agenda : list bool)
    (agora1 : Z) (usuario1 : UsuarioCreate.t) (agora2 : Z) (usuario2 : UsuarioCreate.t)
    (f1 f2 : Fase) (db : BD) : Fase * Fase * BD :=
  match agenda with
  | [] => (f1, f2, db)
  | false :: resto =>
      let (f1', db') := passo_criar_usuario agora1 usuario1 f1 db in
      corrida resto agora1 usuario1 agora2 usuario2 f1' f2 db'
  | true :: resto =>
      let (f2', db') := passo_criar_usuario agora2 usuario2 f2 db in
      corrida resto agora1 usuario1 agora2 usuario2 f1 f2' db'
  end.

(** The request has been answered, and with a success. *)
Definition sucesso (f : Fase) : Prop :=
  match f with
  | Fim (Ok _ _) => True
  | _ => False
  end.

(** *** Vocabulary of the statements *)

(** A session keeps a property of the store when the store it leaves has
    it, whether it returns or raises. *)
Definition preserva {A} (P : BD -> Prop) (m : Sessao A) : Prop :=
  forall db, P db -> P (snd (m db)).

(** Some user other than [usuario_id] holds [email]. *)
Definition email_de_outro (email : string) (usuario_id : Z) (db : BD) : Prop :=
  exists x, In x (usuarios db) /\ Usuario.email x = email /\ Usuario.id x <> usuario_id.

(** *** Answers of the application as a whole *)

(** GET /: [read_root] returns this dictionary, whatever the store. *)
Definition read_root : list (string * string) :=
  [("mensagem", "Bem-vindo à API de Usuários");
   ("documentacao", "/docs");
   ("docs_alternativa", "/redoc")].

(** The bodies of the ten routes, in one type. *)
Inductive Corpo : Type :=
| CorpoUsuario (u : Usuario.t)
| CorpoUsuarios (us : list Usuario.t)
| CorpoUsuarioComEnderecos (x : UsuarioComEnderecos.t)
| CorpoEndereco (e : Endereco.t)
| CorpoEnderecos (es : list Endereco.t)
| CorpoVazio
| CorpoRaiz (d : list (string * string)).

Definition corpo_como {A} (f : A -> Corpo) (r : Resposta A * BD) : Resposta Corpo * BD :=
  match r with
  | (Ok s a, db) => (Ok s (f a), db)
  | (Erro s d, db) => (Erro s d, db)
  end.

(** The answer to a request, and the store after it. *)
Definition responder (r : Requisicao) (db : BD) : Resposta Corpo * BD :=
  match r with
  | PostUsuarios agora usuario => corpo_como CorpoUsuario (POST_usuarios agora usuario db)
  | GetUsuarios skip limit => corpo_como CorpoUsuarios (GET_usuarios skip limit db)
  | GetUsuario usuario_id =>
      corpo_como CorpoUsuarioComEnderecos (GET_usuario usuario_id db)
  | PutUsuario usuario_id usuario =>
      corpo_como CorpoUsuario (PUT_usuario usuario_id usuario db)
  | DeleteUsuario usuario_id =>
      corpo_como (fun _ => CorpoVazio) (DELETE_usuario usuario_id db)
  | PostEnderecos agora usuario_id endereco =>
      corpo_como CorpoEndereco (POST_enderecos agora usuario_id endereco db)
  | GetEnderecos usuario_id => corpo_como CorpoEnderecos (GET_enderecos usuario_id db)
  | PutEndereco endereco_id endereco =>
      corpo_como CorpoEndereco (PUT_endereco endereco_id endereco db)
  | DeleteEndereco endereco_id =>
      corpo_como (fun _ => CorpoVazio) (DELETE_endereco endereco_id db)
  | GetRaiz => (Ok 200 (CorpoRaiz read_root), db)
  end.



(** The [status_code] of each route's decorator. *)
Definition status_da_rota (r : Requisicao) : Z :=
  match r with
  | PostUsuarios _ _ | PostEnderecos _ _ _ => 201
  | DeleteUsuario _ | DeleteEndereco _ => 204
  | _ => 200
  end.

(** What a handler may do besides returning: raise an [HTTPException] of
    status 400 or 404 with the store as it found it. *)
Definition so_falha_limpa {A} (m : Sessao A) (db : BD) : Prop :=
  match m db with
  | (inr _, _) => True
  | (inl (HTTPException s _), db') => db' = db /\ (s = 400 \/ s = 404)
  | (inl _, _) => False
  end.

(** *** A new address against the deletion of its owner

    [criar_endereco], like [criar_usuario], talks to the store twice: the
    SELECT of the owner, then the INSERT. *)

Definition criar_endereco_consulta (usuario_id : Z) : Sessao (option Usuario.t) :=
  query_usuario_first (fun u => Usuario.id u =? usuario_id).

Definition criar_endereco_gravacao (agora usuario_id : Z) (endereco : EnderecoBase.t)
    (usuario : option Usuario.t) : Sessao Endereco.t :=
  match usuario with
  | None => raise usuario_nao_encontrado
  | Some _ =>
      novo_endereco <-
        insert_endereco agora (EnderecoBase.rua endereco) (EnderecoBase.cidade endereco)
          (EnderecoBase.cep endereco) usuario_id ;;
      refresh_endereco novo_endereco
  end.

(** The columns' sizes, in characters: [String(255)], [String(100)],
    [String(10)]. *)
Definition cabe_nas_colunas (e : Endereco.t) : Prop :=
  (1 <= caracteres (Endereco.rua e) <= 255)%nat /\
  (1 <= caracteres (Endereco.cidade e) <= 100)%nat /\
  match Endereco.cep e with
  | Some cep => (caracteres cep <= 10)%nat
  | None => True
  end.

(** *** A client that pages through the users *)

(** The rows of a listing, none when the request failed. *)
Definition itens {A} (r : Resposta (list A)) : list A :=
  match r with
  | Ok _ linhas => linhas
  | Erro _ _ => []
  end.

(** The first [k] pages of [n] users, one GET /usuarios after the other, put
    end to end: skip = 0, n, 2n, ... *)
Definition paginas (n : Z) (k : nat) (db : BD) : list Usuario.t :=
  List.concat (map (fun j => itens (fst (GET_usuarios (Z.of_nat j * n) n db))) (seq 0 k)).

(** Ids and counters start at 1. *)
Definition ids_positivos (db : BD) : Prop :=
  1 <= seq_usuarios db /\ 1 <= seq_enderecos db /\
  (forall u, In u (usuarios db) -> 1 <= Usuario.id u) /\
  (forall e, In e (enderecos db) -> 1 <= Endereco.id e).

(** ** Generic facts about rows *)

Section Linhas.
Context {A : Type}.

Lemma first_filter_None (p : A -> bool) (l : list A) :
  first (filter p l) = None <-> (forall x, In x l -> p x = false).
Proof.
  induction l as [|a l IH]; simpl.
  - split; [intros _ x [] | reflexivity].
  - destruct (p a) eqn:Ha; simpl.
    + split; [discriminate|]. intros H. rewrite (H a) in Ha by now left. discriminate.
    + rewrite IH. split.
      * intros H x [<-|Hx]; auto.
      * intros H x Hx. apply H. now right.
Qed.

Lemma first_filter_Some (p : A -> bool) (l : list A) (x : A) :
  first (filter p l) = Some x -> In x l /\ p x = true.
Proof.
  induction l as [|a l IH]; simpl; [discriminate|].
  destruct (p a) eqn:Ha; simpl.
  - intros [= <-]. auto.
  - intros H. destruct (IH H). auto.
Qed.

Lemma existsb_false_first (p : A -> bool) (l : list A) :
  existsb p l = false <-> first (filter p l) = None.
Proof.
  rewrite first_filter_None. split.
  - intros H x Hx. destruct (p x) eqn:Hp; [|reflexivity].
    assert (existsb p l = true) by (apply existsb_exists; eauto). congruence.
  - intros H. destruct (existsb p l) eqn:E; [|reflexivity].
    apply existsb_exists in E as (x & Hx & Hp). rewrite (H x Hx) in Hp. discriminate.
Qed.

Lemma filter_nenhum (p : A -> bool) (l : list A) :
  (forall x, In x l -> p x = false) -> filter p l = [].
Proof.
  induction l as [|a l IH]; simpl; intros H; [reflexivity|].
  rewrite (H a) by now left. apply IH. intros x Hx. apply H. now right.
Qed.

Lemma filter_todos (p : A -> bool) (l : list A) :
  (forall x, In x l -> p x = true) -> filter p l = l.
Proof.
  induction l as [|a l IH]; simpl; intros H; [reflexivity|].
  rewrite (H a) by now left. f_equal. apply IH. intros x Hx. apply H. now right.
Qed.

Lemma map_nenhum (f : A -> A) (l : list A) :
  (forall x, In x l -> f x = x) -> map f l = l.
Proof.
  induction l as [|a l IH]; simpl; intros H; [reflexivity|].
  rewrite (H a) by now left. f_equal. apply IH. intros x Hx. apply H. now right.
Qed.

(** Filtering rows keeps a column free of repetitions. *)
Lemma NoDup_map_filter {B : Type} (p : A -> bool) (coluna : A -> B) (linhas : list A)
    (Hnd : NoDup (map coluna linhas)) :
  NoDup (map coluna (filter p linhas)).
Proof.
  induction linhas as [|a l IH]; simpl in *; [constructor|].
  apply NoDup_cons_iff in Hnd as [Hnin Hnd].
  destruct (p a); simpl; auto.
  constructor; auto.
  intros Hin. apply Hnin. apply in_map_iff in Hin as (y & Hy & Hin).
  apply filter_In in Hin as [Hin _]. apply in_map_iff. eauto.
Qed.

(** Under a unique key, a row splits its table in two parts that do not
    carry its key. *)
Lemma in_split_chave (chave : A -> Z) (l : list A) (x : A) :
  NoDup (map chave l) -> In x l ->
  exists l1 l2, l = l1 ++ x :: l2 /\ (forall y, In y (l1 ++ l2) -> chave y <> chave x).
Proof.
  intros Hnd Hin. destruct (in_split _ _ Hin) as (l1 & l2 & ->).
  exists l1, l2. split; [reflexivity|].
  rewrite map_app in Hnd. simpl in Hnd. apply NoDup_remove_2 in Hnd.
  intros y Hy Heq. apply Hnd. rewrite <- map_app, <- Heq. now apply in_map.
Qed.

Lemma filter_chave (chave : A -> Z) (l1 l2 : list A) (x : A) (k : Z) :
  chave x = k -> (forall y, In y (l1 ++ l2) -> chave y <> k) ->
  filter (fun y => chave y =? k) (l1 ++ x :: l2) = [x].
Proof.
  intros Hk Hne. rewrite filter_app. simpl. rewrite (proj2 (Z.eqb_eq _ _) Hk).
  rewrite !filter_nenhum; [reflexivity| |];
    intros y Hy; apply Z.eqb_neq, Hne, in_or_app; auto.
Qed.

Lemma filter_fora_chave (chave : A -> Z) (l1 l2 : list A) (x : A) (k : Z) :
  chave x = k -> (forall y, In y (l1 ++ l2) -> chave y <> k) ->
  filter (fun y => negb (chave y =? k)) (l1 ++ x :: l2) = l1 ++ l2.
Proof.
  intros Hk Hne. rewrite filter_app. simpl. rewrite (proj2 (Z.eqb_eq _ _) Hk). simpl.
  rewrite !filter_todos; [reflexivity| |];
    intros y Hy; apply negb_true_iff, Z.eqb_neq, Hne, in_or_app; auto.
Qed.

End Linhas.

(** ** Lookups *)

Lemma usuario_por_id (db : BD) (k : Z) :
  match first (filter (fun u => Usuario.id u =? k) (usuarios db)) with
  | Some u => In u (usuarios db) /\ Usuario.id u = k
  | None => ~ usuario_existe k db
  end.
Proof.
  destruct (first _) as [u|] eqn:E.
  - apply first_filter_Some in E as [Hin Hk]. apply Z.eqb_eq in Hk. auto.
  - intros (u & Hin & Hk). rewrite first_filter_None in E.
    apply E in Hin. apply Z.eqb_neq in Hin. contradiction.
Qed.

Lemma endereco_por_id (db : BD) (k : Z) :
  match first (filter (fun e => Endereco.id e =? k) (enderecos db)) with
  | Some e => In e (enderecos db) /\ Endereco.id e = k
  | None => ~ endereco_existe k db
  end.
Proof.
  destruct (first _) as [e|] eqn:E.
  - apply first_filter_Some in E as [Hin Hk]. apply Z.eqb_eq in Hk. auto.
  - intros (e & Hin & Hk). rewrite first_filter_None in E.
    apply E in Hin. apply Z.eqb_neq in Hin. contradiction.
Qed.

Lemma usuario_por_email (db : BD) (email : string) :
  match first (filter (fun u => Usuario.email u =? email)%string (usuarios db)) with
  | Some u => In u (usuarios db) /\ Usuario.email u = email
  | None => ~ email_cadastrado email db
  end.
Proof.
  destruct (first _) as [u|] eqn:E.
  - apply first_filter_Some in E as [Hin Hk]. apply String.eqb_eq in Hk. auto.
  - intros (u & Hin & Hk). rewrite first_filter_None in E.
    apply E in Hin. apply String.eqb_neq in Hin. contradiction.
Qed.

(** ** Creating a user *)

Lemma criar_usuario_duplicado (db : BD) (agora : Z) (usuario : UsuarioCreate.t) :
  email_cadastrado (UsuarioCreate.email usuario) db ->
  criar_usuario agora usuario db = (inl email_ja_cadastrado, db).
Proof.
  intros Hdup. unfold criar_usuario, bind, query_usuario_first.
  pose proof (usuario_por_email db (UsuarioCreate.email usuario)) as H.
  destruct (first _); [reflexivity | contradiction].
Qed.

Lemma criar_usuario_novo (db : BD) (agora : Z) (usuario : UsuarioCreate.t) :
  (forall u, In u (usuarios db) -> Usuario.id u < seq_usuarios db) ->
  ~ email_cadastrado (UsuarioCreate.email usuario) db ->
  let novo :=
    Usuario.mk (seq_usuarios db) (UsuarioCreate.nome usuario)
      (UsuarioCreate.email usuario) agora in
  criar_usuario agora usuario db =
  (inr novo, mkBD (usuarios db ++ [novo]) (enderecos db)
                  (seq_usuarios db + 1) (seq_enderecos db)).
Proof.
  intros Hseq Hnew novo. unfold criar_usuario, bind, query_usuario_first.
  pose proof (usuario_por_email db (UsuarioCreate.email usuario)) as H.
  destruct (first _) as [u|] eqn:E.
  - exfalso. apply Hnew. exists u. exact H.
  - unfold insert_usuario. apply existsb_false_first in E. rewrite E.
    unfold refresh_usuario. cbn [usuarios Usuario.id].
    rewrite filter_app, filter_nenhum.
    + cbn. rewrite Z.eqb_refl. reflexivity.
    + intros x Hx. apply Z.eqb_neq. specialize (Hseq x Hx). lia.
Qed.

(** ** Sessions and the properties they keep *)

Section Preserva.
Variable P : BD -> Prop.

Lemma preserva_bind {A B} (m : Sessao A) (k : A -> Sessao B) :
  preserva P m -> (forall a, preserva P (k a)) -> preserva P (bind m k).
Proof.
  intros Hm Hk db HP. unfold bind. specialize (Hm db HP).
  destruct (m db) as [[e|a] db1]; [exact Hm|]. now apply Hk.
Qed.

Lemma preserva_ret {A} (a : A) : preserva P (ret a).
Proof. intros db HP. exact HP. Qed.

Lemma preserva_raise {A} (e : Excecao) : preserva P (@raise A e).
Proof. intros db HP. exact HP. Qed.

Lemma preserva_query_usuario_first p : preserva P (query_usuario_first p).
Proof. intros db HP. exact HP. Qed.

Lemma preserva_query_endereco_first p : preserva P (query_endereco_first p).
Proof. intros db HP. exact HP. Qed.

Lemma preserva_query_usuarios_all skip limit : preserva P (query_usuarios_all skip limit).
Proof.
  intros db HP. unfold query_usuarios_all.
  destruct (offset_limit_all _ _ _); exact HP.
Qed.

Lemma preserva_relationship_enderecos u : preserva P (relationship_enderecos u).
Proof. intros db HP. exact HP. Qed.

Lemma preserva_refresh_usuario k : preserva P (refresh_usuario k).
Proof. intros db HP. unfold refresh_usuario. destruct (first _); exact HP. Qed.

Lemma preserva_refresh_endereco k : preserva P (refresh_endereco k).
Proof. intros db HP. unfold refresh_endereco. destruct (first _); exact HP. Qed.

(** What is left to show of a handler is that its writes keep [P]. *)
Hypothesis P_insert_usuario : forall agora nome email, preserva P (insert_usuario agora nome email).
Hypothesis P_update_usuario : forall k nome email, preserva P (update_usuario k nome email).
Hypothesis P_delete_usuario : forall u, preserva P (delete_usuario u).
Hypothesis P_insert_endereco :
  forall agora rua cidade cep k, preserva P (insert_endereco agora rua cidade cep k).
Hypothesis P_update_endereco :
  forall k rua cidade cep, preserva P (update_endereco k rua cidade cep).
Hypothesis P_delete_endereco : forall e, preserva P (delete_endereco e).

Ltac preserva_passo :=
  first
    [ apply preserva_bind; [|intros ?]
    | apply preserva_ret | apply preserva_raise
    | apply preserva_query_usuario_first | apply preserva_query_endereco_first
    | apply preserva_query_usuarios_all | apply preserva_relationship_enderecos
    | apply preserva_refresh_usuario | apply preserva_refresh_endereco
    | apply P_insert_usuario | apply P_update_usuario | apply P_delete_usuario
    | apply P_insert_endereco | apply P_update_endereco | apply P_delete_endereco
    | match goal with |- preserva _ (match ?x with _ => _ end) => destruct x end ].

Lemma preserva_rota {A} (status_code : Z) (m : Sessao A) (db : BD) :
  preserva P m -> P db -> P (snd (rota status_code m db)).
Proof.
  intros Hm HP. unfold rota. specialize (Hm db HP).
  destruct (m db) as [[e|a] db']; exact Hm.
Qed.

Lemma preserva_atender (r : Requisicao) (db : BD) : P db -> P (atender r db).
Proof.
  intros HP. destruct r; simpl; try exact HP;
    (apply preserva_rota; [|exact HP]);
    unfold criar_usuario, listar_usuarios, obter_usuario, atualizar_usuario,
      deletar_usuario, criar_endereco, obter_enderecos_usuario, atualizar_endereco,
      deletar_endereco;
    repeat preserva_passo.
Qed.

Lemma preserva_executar (historia : list Requisicao) (db : BD) :
  P db -> P (executar historia db).
Proof.
  revert db. induction historia as [|r h IH]; intros db HP; simpl; [exact HP|].
  apply IH, preserva_atender, HP.
Qed.

End Preserva.

(** ** The foreign key is kept by every write *)

Lemma set_usuario_id k nome email u : Usuario.id (set_usuario k nome email u) = Usuario.id u.
Proof. unfold set_usuario. destruct (_ =? _); reflexivity. Qed.

Lemma set_endereco_id k rua cidade cep e :
  Endereco.id (set_endereco k rua cidade cep e) = Endereco.id e.
Proof. unfold set_endereco. destruct (_ =? _); reflexivity. Qed.

Lemma set_endereco_usuario_id k rua cidade cep e :
  Endereco.usuario_id (set_endereco k rua cidade cep e) = Endereco.usuario_id e.
Proof. unfold set_endereco. destruct (_ =? _); reflexivity. Qed.

Lemma fk_insert_usuario agora nome email :
  preserva fk_usuario_id (insert_usuario agora nome email).
Proof.
  intros db Hfk. unfold insert_usuario.
  destruct (existsb _ _); [exact Hfk|]. intros e He.
  destruct (Hfk e He) as (u & Hu & Hid). exists u. split; [|exact Hid].
  cbn. apply in_or_app. now left.
Qed.

Lemma fk_update_usuario k nome email :
  preserva fk_usuario_id (update_usuario k nome email).
Proof.
  intros db Hfk. unfold update_usuario.
  destruct (existsb _ _); [exact Hfk|]. intros e He.
  destruct (Hfk e He) as (u & Hu & Hid).
  exists (set_usuario k nome email u). split.
  - cbn. now apply in_map.
  - now rewrite set_usuario_id.
Qed.

Lemma fk_delete_usuario u : preserva fk_usuario_id (delete_usuario u).
Proof.
  intros db Hfk e He. cbn in He.
  apply filter_In in He as [He Hne].
  destruct (Hfk e He) as (x & Hx & Hid). exists x. split; [|exact Hid].
  cbn. apply filter_In. split; [exact Hx|]. now rewrite Hid.
Qed.

Lemma fk_insert_endereco agora rua cidade cep k :
  preserva fk_usuario_id (insert_endereco agora rua cidade cep k).
Proof.
  intros db Hfk. unfold insert_endereco.
  destruct (existsb _ _) eqn:E; [|exact Hfk]. intros e He.
  cbn in He. apply in_app_or in He as [He|[<-|[]]].
  - exact (Hfk e He).
  - apply existsb_exists in E as (u & Hu & Hid). apply Z.eqb_eq in Hid. now exists u.
Qed.

Lemma fk_update_endereco k rua cidade cep :
  preserva fk_usuario_id (update_endereco k rua cidade cep).
Proof.
  intros db Hfk e He. cbn in He.
  apply in_map_iff in He as (e0 & <- & He0).
  rewrite set_endereco_usuario_id. exact (Hfk e0 He0).
Qed.

Lemma fk_delete_endereco e : preserva fk_usuario_id (delete_endereco e).
Proof.
  intros db Hfk x Hx. cbn in Hx.
  apply filter_In in Hx as [Hx _]. exact (Hfk x Hx).
Qed.

(** Whatever the request, the foreign key holds after it if it held before. *)
Lemma fk_atender (r : Requisicao) (db : BD) :
  fk_usuario_id db -> fk_usuario_id (atender r db).
Proof.
  apply preserva_atender.
  - exact fk_insert_usuario.
  - exact fk_update_usuario.
  - exact fk_delete_usuario.
  - exact fk_insert_endereco.
  - exact fk_update_endereco.
  - exact fk_delete_endereco.
Qed.

(** ** The schema's constraints are kept by every write *)

Lemma NoDup_map_snoc {A B : Type} (f : A -> B) (l : list A) (x : A) :
  NoDup (map f l) -> ~ In (f x) (map f l) -> NoDup (map f (l ++ [x])).
Proof.
  intros Hnd Hnin. rewrite map_app. simpl.
  apply (NoDup_Add (a := f x) (l := map f l)).
  - rewrite <- (app_nil_r (map f l)) at 1. apply Add_app.
  - auto.
Qed.

Lemma map_id_set_usuario k nome email l :
  map Usuario.id (map (set_usuario k nome email) l) = map Usuario.id l.
Proof. rewrite map_map. apply map_ext. intros u. apply set_usuario_id. Qed.

Lemma map_id_set_endereco k rua cidade cep l :
  map Endereco.id (map (set_endereco k rua cidade cep) l) = map Endereco.id l.
Proof. rewrite map_map. apply map_ext. intros e. apply set_endereco_id. Qed.

(** The UPDATE of a user touches the one row of that id. *)
Lemma map_set_usuario_split k nome email l1 u l2 :
  Usuario.id u = k -> (forall y, In y (l1 ++ l2) -> Usuario.id y <> k) ->
  map (set_usuario k nome email) (l1 ++ u :: l2) =
  l1 ++ Usuario.mk (Usuario.id u) nome email (Usuario.criado_em u) :: l2.
Proof.
  intros Hk Hne. rewrite map_app. simpl.
  rewrite !map_nenhum.
  - unfold set_usuario at 1. rewrite (proj2 (Z.eqb_eq _ _) Hk). reflexivity.
  - intros y Hy. unfold set_usuario.
    rewrite (proj2 (Z.eqb_neq _ _)); [reflexivity|]. apply Hne, in_or_app. now right.
  - intros y Hy. unfold set_usuario.
    rewrite (proj2 (Z.eqb_neq _ _)); [reflexivity|]. apply Hne, in_or_app. now left.
Qed.

Lemma map_set_endereco_split k rua cidade cep l1 e l2 :
  Endereco.id e = k -> (forall y, In y (l1 ++ l2) -> Endereco.id y <> k) ->
  map (set_endereco k rua cidade cep) (l1 ++ e :: l2) =
  l1 ++ Endereco.mk (Endereco.id e) rua cidade cep
          (Endereco.usuario_id e) (Endereco.criado_em e) :: l2.
Proof.
  intros Hk Hne. rewrite map_app. simpl.
  rewrite !map_nenhum.
  - unfold set_endereco at 1. rewrite (proj2 (Z.eqb_eq _ _) Hk). reflexivity.
  - intros y Hy. unfold set_endereco.
    rewrite (proj2 (Z.eqb_neq _ _)); [reflexivity|]. apply Hne, in_or_app. now right.
  - intros y Hy. unfold set_endereco.
    rewrite (proj2 (Z.eqb_neq _ _)); [reflexivity|]. apply Hne, in_or_app. now left.
Qed.

Lemma map_set_usuario_ausente k nome email l :
  (forall y, In y l -> Usuario.id y <> k) -> map (set_usuario k nome email) l = l.
Proof.
  intros Hne. apply map_nenhum. intros y Hy. unfold set_usuario.
  rewrite (proj2 (Z.eqb_neq _ _)); [reflexivity|]. now apply Hne.
Qed.

Lemma bd_ok_insert_usuario agora nome email :
  preserva bd_ok (insert_usuario agora nome email).
Proof.
  intros db Hok. pose proof (fk_insert_usuario agora nome email db (fk_enderecos db Hok)) as Hfk.
  unfold insert_usuario in *.
  destruct Hok as [Hpu Hpe Huq Hfk0 Hsu Hse].
  destruct (existsb _ _) eqn:E;
    [constructor; cbn; auto; intros u Hu; specialize (Hsu u Hu); lia|].
  constructor; cbn; auto.
  - apply NoDup_map_snoc; [exact Hpu|]. cbn.
    intros Hin. apply in_map_iff in Hin as (u & Hid & Hu). specialize (Hsu u Hu). lia.
  - apply NoDup_map_snoc; [exact Huq|]. cbn.
    intros Hin. apply in_map_iff in Hin as (u & Hem & Hu).
    apply existsb_false_first in E. rewrite first_filter_None in E.
    specialize (E u Hu). apply String.eqb_neq in E. contradiction.
  - intros u Hu. apply in_app_or in Hu as [Hu|[<-|[]]]; [specialize (Hsu u Hu)|cbn]; lia.
Qed.

Lemma bd_ok_update_usuario k nome email :
  preserva bd_ok (update_usuario k nome email).
Proof.
  intros db Hok. pose proof (fk_update_usuario k nome email db (fk_enderecos db Hok)) as Hfk.
  unfold update_usuario in *.
  destruct (existsb _ _) eqn:E; [exact Hok|].
  destruct Hok as [Hpu Hpe Huq Hfk0 Hsu Hse].
  apply existsb_false_first in E. rewrite first_filter_None in E.
  constructor; cbn; auto.
  - now rewrite map_id_set_usuario.
  - pose proof (usuario_por_id db k) as Hk.
    destruct (first _) as [u|].
    + destruct Hk as [Hin Hid].
      destruct (in_split_chave Usuario.id _ _ Hpu Hin) as (l1 & l2 & Heq & Hne).
      rewrite Hid in Hne. rewrite Heq in *.
      rewrite (map_set_usuario_split k nome email l1 u l2 Hid Hne).
      rewrite map_app in *. cbn in *.
      apply NoDup_remove_1 in Huq.
      apply (NoDup_Add (a := email) (l := map Usuario.email l1 ++ map Usuario.email l2));
        [apply Add_app|]. split; [exact Huq|].
      rewrite <- map_app. intros Hin'. apply in_map_iff in Hin' as (y & Hem & Hy).
      assert (Hy' : In y (l1 ++ u :: l2)).
      { apply in_app_or in Hy. apply in_or_app. destruct Hy; [left|right; right]; auto. }
      specialize (E y Hy'). apply andb_false_iff in E as [E|E].
      * apply String.eqb_neq in E. contradiction.
      * apply negb_false_iff, Z.eqb_eq in E. exact (Hne y Hy E).
    + rewrite map_set_usuario_ausente; [exact Huq|].
      intros y Hy Hid. apply Hk. now exists y.
  - intros u Hu. apply in_map_iff in Hu as (u0 & <- & Hu0).
    rewrite set_usuario_id. auto.
Qed.

Lemma bd_ok_delete_usuario u : preserva bd_ok (delete_usuario u).
Proof.
  intros db Hok. pose proof (fk_delete_usuario u db (fk_enderecos db Hok)) as Hfk.
  destruct Hok as [Hpu Hpe Huq Hfk0 Hsu Hse].
  constructor; cbn; auto using NoDup_map_filter.
  - intros x Hx. apply filter_In in Hx as [Hx _]. auto.
  - intros x Hx. apply filter_In in Hx as [Hx _]. auto.
Qed.

Lemma bd_ok_insert_endereco agora rua cidade cep k :
  preserva bd_ok (insert_endereco agora rua cidade cep k).
Proof.
  intros db Hok.
  pose proof (fk_insert_endereco agora rua cidade cep k db (fk_enderecos db Hok)) as Hfk.
  unfold insert_endereco in *.
  destruct Hok as [Hpu Hpe Huq Hfk0 Hsu Hse].
  destruct (existsb _ _) eqn:E;
    [|constructor; cbn; auto; intros e He; specialize (Hse e He); lia].
  constructor; cbn; auto.
  - apply NoDup_map_snoc; [exact Hpe|]. cbn.
    intros Hin. apply in_map_iff in Hin as (e & Hid & He). specialize (Hse e He). lia.
  - intros e He. apply in_app_or in He as [He|[<-|[]]]; [specialize (Hse e He)|cbn]; lia.
Qed.

Lemma bd_ok_update_endereco k rua cidade cep :
  preserva bd_ok (update_endereco k rua cidade cep).
Proof.
  intros db Hok.
  pose proof (fk_update_endereco k rua cidade cep db (fk_enderecos db Hok)) as Hfk.
  destruct Hok as [Hpu Hpe Huq Hfk0 Hsu Hse].
  constructor; cbn; auto.
  - now rewrite map_id_set_endereco.
  - intros e He. apply in_map_iff in He as (e0 & <- & He0).
    rewrite set_endereco_id. auto.
Qed.

Lemma bd_ok_delete_endereco e : preserva bd_ok (delete_endereco e).
Proof.
  intros db Hok. pose proof (fk_delete_endereco e db (fk_enderecos db Hok)) as Hfk.
  destruct Hok as [Hpu Hpe Huq Hfk0 Hsu Hse].
  constructor; cbn; auto using NoDup_map_filter.
  intros x Hx. apply filter_In in Hx as [Hx _]. auto.
Qed.

(** Whatever the request, the constraints hold after it if they held before. *)
Lemma bd_ok_atender (r : Requisicao) (db : BD) : bd_ok db -> bd_ok (atender r db).
Proof.
  apply preserva_atender.
  - exact bd_ok_insert_usuario.
  - exact bd_ok_update_usuario.
  - exact bd_ok_delete_usuario.
  - exact bd_ok_insert_endereco.
  - exact bd_ok_update_endereco.
  - exact bd_ok_delete_endereco.
Qed.

Lemma bd_ok_executar (historia : list Requisicao) (db : BD) :
  bd_ok db -> bd_ok (executar historia db).
Proof.
  apply preserva_executar.
  - exact bd_ok_insert_usuario.
  - exact bd_ok_update_usuario.
  - exact bd_ok_delete_usuario.
  - exact bd_ok_insert_endereco.
  - exact bd_ok_update_endereco.
  - exact bd_ok_delete_endereco.
Qed.

Lemma bd_ok_vazio : bd_ok bd_vazio.
Proof.
  constructor; cbn; try constructor; try (intros ? []).
Qed.

(** ** Ids already issued *)



Lemma POST_usuarios_casos (db : BD) (agora : Z) (usuario : UsuarioCreate.t) :
  (forall u, In u (usuarios db) -> Usuario.id u < seq_usuarios db) ->
  (email_cadastrado (UsuarioCreate.email usuario) db /\
   POST_usuarios agora usuario db = (Erro 400 "Email já cadastrado", db)) \/
  (~ email_cadastrado (UsuarioCreate.email usuario) db /\
   let novo :=
     Usuario.mk (seq_usuarios db) (UsuarioCreate.nome usuario)
       (UsuarioCreate.email usuario) agora in
   POST_usuarios agora usuario db =
   (Ok 201 novo, mkBD (usuarios db ++ [novo]) (enderecos db)
                      (seq_usuarios db + 1) (seq_enderecos db))).
Proof.
  intros Hseq. unfold POST_usuarios, rota.
  pose proof (usuario_por_email db (UsuarioCreate.email usuario)) as H.
  destruct (first _) as [u|].
  - left. assert (Hdup : email_cadastrado (UsuarioCreate.email usuario) db) by now exists u.
    split; [exact Hdup|]. now rewrite criar_usuario_duplicado.
  - right. split; [exact H|]. cbv zeta. now rewrite criar_usuario_novo.
Qed.





(** ** Deleting a user *)

Lemma chave_unica {A : Type} (chave : A -> Z) (l : list A) (x y : A) :
  NoDup (map chave l) -> In x l -> In y l -> chave x = chave y -> x = y.
Proof.
  intros Hnd Hx Hy Heq.
  destruct (in_split_chave chave l x Hnd Hx) as (l1 & l2 & -> & Hne).
  apply in_app_or in Hy as [Hy|[Hy|Hy]]; [exfalso|exact Hy|exfalso];
    apply (Hne y); auto using in_or_app.
Qed.

Lemma deletar_usuario_ausente (db : BD) (k : Z) :
  ~ usuario_existe k db -> deletar_usuario k db = (inl usuario_nao_encontrado, db).
Proof.
  intros Hno. unfold deletar_usuario, bind, query_usuario_first.
  pose proof (usuario_por_id db k) as H.
  destruct (first _) as [u|]; [|reflexivity].
  exfalso. apply Hno. now exists u.
Qed.

Lemma deletar_usuario_presente (db : BD) (k : Z) :
  usuario_existe k db ->
  deletar_usuario k db =
  (inr tt, mkBD (filter (fun x => negb (Usuario.id x =? k)) (usuarios db))
                (filter (fun e => negb (Endereco.usuario_id e =? k)) (enderecos db))
                (seq_usuarios db) (seq_enderecos db)).
Proof.
  intros Hyes. unfold deletar_usuario, bind, query_usuario_first.
  pose proof (usuario_por_id db k) as H.
  destruct (first _) as [u|]; [|contradiction].
  destruct H as [_ <-]. reflexivity.
Qed.

Lemma atualizar_endereco_ausente (db : BD) (k : Z) (endereco : EnderecoBase.t) :
  ~ endereco_existe k db -> atualizar_endereco k endereco db = (inl endereco_nao_encontrado, db).
Proof.
  intros Hno. unfold atualizar_endereco, bind, query_endereco_first.
  pose proof (endereco_por_id db k) as H.
  destruct (first _) as [e|]; [|reflexivity].
  exfalso. apply Hno. now exists e.
Qed.

Lemma deletar_endereco_ausente (db : BD) (k : Z) :
  ~ endereco_existe k db -> deletar_endereco k db = (inl endereco_nao_encontrado, db).
Proof.
  intros Hno. unfold deletar_endereco, bind, query_endereco_first.
  pose proof (endereco_por_id db k) as H.
  destruct (first _) as [e|]; [|reflexivity].
  exfalso. apply Hno. now exists e.
Qed.

(** C2. Deleting a user.  In a store the schema allows: DELETE
    /usuarios/{id} of an existing id answers 204 and leaves the store
    without the rows of [usuarios] of that id and without the rows of
    [enderecos] whose [usuario_id] is that id, every other row kept in
    place; no user of that id and no address of that [usuario_id] remains,
    and the id of each address removed is then unknown to the store, so that
    PUT and DELETE /enderecos/{id} on it answer 404 (NotFound); of an absent
    id it answers 404 and the store is unchanged.  Whatever request [r] is
    served, the foreign key (every address's [usuario_id] is the id of a
    stored user), and with it every constraint of the schema, holds
    afterwards. *)
Theorem deletar_usuario_cascata (db : BD) (usuario_id : Z) (r : Requisicao) :
  bd_ok db ->
  (usuario_existe usuario_id db ->
   let db' :=
     mkBD (filter (fun x => negb (Usuario.id x =? usuario_id)) (usuarios db))
          (filter (fun e => negb (Endereco.usuario_id e =? usuario_id)) (enderecos db))
          (seq_usuarios db) (seq_enderecos db) in
   DELETE_usuario usuario_id db = (Ok 204 tt, db') /\
   ~ usuario_existe usuario_id db' /\
   (forall e, In e (enderecos db') -> Endereco.usuario_id e <> usuario_id) /\
   (forall e, In e (enderecos db) -> Endereco.usuario_id e = usuario_id ->
      ~ endereco_existe (Endereco.id e) db' /\
      (forall endereco,
         PUT_endereco (Endereco.id e) endereco db' =
         (Erro 404 "Endereço não encontrado", db')) /\
      DELETE_endereco (Endereco.id e) db' = (Erro 404 "Endereço não encontrado", db'))) /\
  (~ usuario_existe usuario_id db ->
   DELETE_usuario usuario_id db = (Erro 404 "Usuário não encontrado", db)) /\
  fk_usuario_id (atender r db) /\
  bd_ok (atender r db).
Proof.
  intros Hok. split; [|split; [|split]].
  - intros Hyes db'. split; [|split; [|split]].
    + unfold DELETE_usuario, rota. now rewrite deletar_usuario_presente.
    + intros (u & Hu & Hid). cbn in Hu. apply filter_In in Hu as [_ Hne].
      apply negb_true_iff, Z.eqb_neq in Hne. contradiction.
    + intros e He. cbn in He. apply filter_In in He as [_ Hne].
      now apply negb_true_iff, Z.eqb_neq in Hne.
    + intros e He Hid.
      assert (Hno : ~ endereco_existe (Endereco.id e) db').
      { intros (e' & He' & Hid'). cbn in He'. apply filter_In in He' as [He' Hne].
        apply negb_true_iff, Z.eqb_neq in Hne.
        assert (e' = e) by
          (eapply (chave_unica Endereco.id); eauto using pk_enderecos).
        subst e'. contradiction. }
      split; [exact Hno|]. split.
      * intros endereco. unfold PUT_endereco, rota.
        now rewrite atualizar_endereco_ausente.
      * unfold DELETE_endereco, rota. now rewrite deletar_endereco_ausente.
  - intros Hno. unfold DELETE_usuario, rota. now rewrite deletar_usuario_ausente.
  - apply fk_atender, fk_enderecos, Hok.
  - apply bd_ok_atender, Hok.
Qed.

Lemma deletar_usuario_cascata_witness :
  let ana := UsuarioCreate.mk "Ana" "ana@example.com" in
  let casa := EnderecoBase.mk "Rua A, 1" "Recife" (Some "50000-000") in
  let db := executar [PostUsuarios 10 ana; PostEnderecos 11 1 casa] bd_vazio in
  DELETE_usuario 1 db = (Ok 204 tt, mkBD [] [] 2 2) /\
  PUT_endereco 1 casa (mkBD [] [] 2 2) = (Erro 404 "Endereço não encontrado", mkBD [] [] 2 2) /\
  DELETE_usuario 7 db = (Erro 404 "Usuário não encontrado", db).
Proof.
  intros ana casa db.
  assert (Hok : bd_ok db) by apply bd_ok_executar, bd_ok_vazio.
  destruct (deletar_usuario_cascata db 1 GetRaiz Hok) as (Hdel & _).
  destruct (deletar_usuario_cascata db 7 GetRaiz Hok) as (_ & Hno & _).
  destruct Hdel as (Hrun & _ & _ & Hfind).
  { eexists. split; [left; reflexivity|reflexivity]. }
  split; [exact Hrun|]. split.
  - destruct (Hfind (Endereco.mk 1 "Rua A, 1" "Recife" (Some "50000-000") 1 11)) as (_ & H & _).
    + left; reflexivity.
    + reflexivity.
    + exact (H casa).
  - apply Hno. intros (u & [<-|[]] & Hid). discriminate Hid.
Defined.

(** ** Updating a user *)

Lemma atualizar_usuario_ausente (db : BD) (k : Z) (usuario : UsuarioCreate.t) :
  ~ usuario_existe k db -> atualizar_usuario k usuario db = (inl usuario_nao_encontrado, db).
Proof.
  intros Hno. unfold atualizar_usuario, bind, query_usuario_first.
  pose proof (usuario_por_id db k) as H.
  destruct (first _) as [u|]; [|reflexivity].
  exfalso. apply Hno. now exists u.
Qed.

Lemma email_de_outro_first (db : BD) (k : Z) (email : string) :
  match first (filter (fun x => (Usuario.email x =? email)%string
                                && negb (Usuario.id x =? k)) (usuarios db)) with
  | Some _ => email_de_outro email k db
  | None => ~ email_de_outro email k db
  end.
Proof.
  destruct (first _) as [x|] eqn:E.
  - apply first_filter_Some in E as [Hin Hp]. apply andb_true_iff in Hp as [He Hk].
    apply String.eqb_eq in He. apply negb_true_iff, Z.eqb_neq in Hk. now exists x.
  - intros (x & Hin & He & Hk). rewrite first_filter_None in E. specialize (E x Hin).
    apply andb_false_iff in E as [E|E].
    + apply String.eqb_neq in E. contradiction.
    + apply negb_false_iff, Z.eqb_eq in E. contradiction.
Qed.

Lemma atualizar_usuario_duplicado (db : BD) (k : Z) (usuario : UsuarioCreate.t) :
  usuario_existe k db -> email_de_outro (UsuarioCreate.email usuario) k db ->
  atualizar_usuario k usuario db = (inl email_ja_cadastrado, db).
Proof.
  intros Hyes Hdup. unfold atualizar_usuario, bind, query_usuario_first.
  pose proof (usuario_por_id db k) as H.
  destruct (first _) as [u|]; [|contradiction].
  pose proof (email_de_outro_first db k (UsuarioCreate.email usuario)) as H2.
  destruct (first _); [reflexivity|contradiction].
Qed.

Lemma atualizar_usuario_grava (db : BD) (k : Z) (usuario : UsuarioCreate.t) :
  NoDup (map Usuario.id (usuarios db)) ->
  usuario_existe k db -> ~ email_de_outro (UsuarioCreate.email usuario) k db ->
  exists l1 u l2,
    usuarios db = l1 ++ u :: l2 /\ Usuario.id u = k /\
    (forall y, In y (l1 ++ l2) -> Usuario.id y <> k) /\
    let u' :=
      Usuario.mk (Usuario.id u) (UsuarioCreate.nome usuario)
        (UsuarioCreate.email usuario) (Usuario.criado_em u) in
    atualizar_usuario k usuario db =
    (inr u', mkBD (l1 ++ u' :: l2) (enderecos db) (seq_usuarios db) (seq_enderecos db)).
Proof.
  intros Hpk Hyes Hnew. unfold atualizar_usuario, bind, query_usuario_first.
  pose proof (usuario_por_id db k) as H.
  destruct (first _) as [u|]; [|contradiction].
  destruct H as [Hin Hid].
  destruct (in_split_chave Usuario.id _ _ Hpk Hin) as (l1 & l2 & Heq & Hne).
  rewrite Hid in Hne. exists l1, u, l2. repeat (split; [assumption|]).
  pose proof (email_de_outro_first db k (UsuarioCreate.email usuario)) as H2.
  destruct (first _) eqn:E2; [contradiction|].
  rewrite Hid. unfold update_usuario.
  apply existsb_false_first in E2. rewrite E2.
  unfold refresh_usuario. cbn [usuarios enderecos seq_usuarios seq_enderecos].
  rewrite Heq, (map_set_usuario_split k _ _ l1 u l2 Hid Hne).
  rewrite (filter_chave Usuario.id l1 l2 _ k); [rewrite Hid; reflexivity|exact Hid|exact Hne].
Qed.

(** C3. Updating a user.  In a store the schema allows: PUT /usuarios/{id}
    of an absent id answers 404 (NotFound) and the store is unchanged; of an
    existing id, when a user of another id holds the input email, it answers
    400 "Email já cadastrado" (DuplicateEmail), the store unchanged;
    otherwise it answers 200 with the row of that id rewritten, the input
    name and email in it and its id and [criado_em] as they were, and that
    row is the one row of [usuarios] replaced, in place; addresses and
    counters are as they were. *)
Theorem atualizar_usuario_casos (db : BD) (usuario_id : Z) (usuario : UsuarioCreate.t) :
  bd_ok db ->
  (~ usuario_existe usuario_id db ->
   PUT_usuario usuario_id usuario db = (Erro 404 "Usuário não encontrado", db)) /\
  (usuario_existe usuario_id db ->
   email_de_outro (UsuarioCreate.email usuario) usuario_id db ->
   PUT_usuario usuario_id usuario db = (Erro 400 "Email já cadastrado", db)) /\
  (usuario_existe usuario_id db ->
   ~ email_de_outro (UsuarioCreate.email usuario) usuario_id db ->
   exists l1 u l2,
     usuarios db = l1 ++ u :: l2 /\ Usuario.id u = usuario_id /\
     (forall y, In y (l1 ++ l2) -> Usuario.id y <> usuario_id) /\
     let u' :=
       Usuario.mk (Usuario.id u) (UsuarioCreate.nome usuario)
         (UsuarioCreate.email usuario) (Usuario.criado_em u) in
     PUT_usuario usuario_id usuario db =
     (Ok 200 u',
      mkBD (l1 ++ u' :: l2) (enderecos db) (seq_usuarios db) (seq_enderecos db))).
Proof.
  intros Hok. split; [|split].
  - intros Hno. unfold PUT_usuario, rota. now rewrite atualizar_usuario_ausente.
  - intros Hyes Hdup. unfold PUT_usuario, rota. now rewrite atualizar_usuario_duplicado.
  - intros Hyes Hnew.
    destruct (atualizar_usuario_grava db usuario_id usuario (pk_usuarios db Hok) Hyes Hnew)
      as (l1 & u & l2 & Heq & Hid & Hne & Hrun).
    exists l1, u, l2. repeat (split; [assumption|]).
    cbv zeta in *. unfold PUT_usuario, rota. now rewrite Hrun.
Qed.

Lemma atualizar_usuario_casos_witness :
  let ana := UsuarioCreate.mk "Ana" "ana@example.com" in
  let bia := UsuarioCreate.mk "Bia" "bia@example.com" in
  let db := executar [PostUsuarios 10 ana; PostUsuarios 11 bia] bd_vazio in
  PUT_usuario 9999 ana db = (Erro 404 "Usuário não encontrado", db) /\
  PUT_usuario 2 ana db = (Erro 400 "Email já cadastrado", db) /\
  fst (PUT_usuario 2 (UsuarioCreate.mk "Beatriz" "bia@example.com") db) =
  Ok 200 (Usuario.mk 2 "Beatriz" "bia@example.com" 11).
Proof.
  intros ana bia db.
  assert (Hok : bd_ok db) by apply bd_ok_executar, bd_ok_vazio.
  split; [|split].
  - apply (atualizar_usuario_casos db 9999 ana Hok).
    intros (u & [<-|[<-|[]]] & Hid); discriminate Hid.
  - apply (atualizar_usuario_casos db 2 ana Hok).
    + eexists. split; [right; left; reflexivity|reflexivity].
    + eexists. split; [left; reflexivity|]. split; [reflexivity|discriminate].
  - reflexivity.
Defined.

(** ** Updating an address *)

Lemma atualizar_endereco_grava (db : BD) (k : Z) (endereco : EnderecoBase.t) :
  NoDup (map Endereco.id (enderecos db)) ->
  endereco_existe k db ->
  exists l1 e l2,
    enderecos db = l1 ++ e :: l2 /\ Endereco.id e = k /\
    (forall y, In y (l1 ++ l2) -> Endereco.id y <> k) /\
    let e' :=
      Endereco.mk (Endereco.id e) (EnderecoBase.rua endereco) (EnderecoBase.cidade endereco)
        (EnderecoBase.cep endereco) (Endereco.usuario_id e) (Endereco.criado_em e) in
    atualizar_endereco k endereco db =
    (inr e', mkBD (usuarios db) (l1 ++ e' :: l2) (seq_usuarios db) (seq_enderecos db)).
Proof.
  intros Hpk Hyes. unfold atualizar_endereco, bind, query_endereco_first.
  pose proof (endereco_por_id db k) as H.
  destruct (first _) as [e|]; [|contradiction].
  destruct H as [Hin Hid].
  destruct (in_split_chave Endereco.id _ _ Hpk Hin) as (l1 & l2 & Heq & Hne).
  rewrite Hid in Hne. exists l1, e, l2. repeat (split; [assumption|]).
  rewrite Hid. unfold update_endereco, refresh_endereco.
  cbn [usuarios enderecos seq_usuarios seq_enderecos].
  rewrite Heq, (map_set_endereco_split k _ _ _ l1 e l2 Hid Hne).
  rewrite (filter_chave Endereco.id l1 l2 _ k); [rewrite Hid; reflexivity|exact Hid|exact Hne].
Qed.

Lemma validar_sem_cep (campos : list (string * JSON)) (endereco : EnderecoBase.t) :
  dict_get "cep" campos = None -> validar_EnderecoBase campos = Some endereco ->
  EnderecoBase.cep endereco = None.
Proof.
  intros Hcep. unfold validar_EnderecoBase. rewrite Hcep.
  destruct (campo_str 1 255 _); [|discriminate].
  destruct (campo_str 1 100 _); [|discriminate].
  cbn. intros [= <-]. reflexivity.
Qed.

(** C4. Updating an address.  In a store the schema allows: PUT
    /enderecos/{id} of an absent id answers 404 (NotFound), the store
    unchanged; of an existing id it answers 200 with the row of that id
    rewritten: [rua], [cidade] and [cep] are the input's, whatever they
    were, and [id], [usuario_id] and [criado_em] are as they were; that row
    is the one row of [enderecos] replaced, in place.  In particular a body
    that validates and has no "cep" key leaves the stored [cep] null. *)
Theorem atualizar_endereco_casos (db : BD) (endereco_id : Z) (endereco : EnderecoBase.t) :
  bd_ok db ->
  (~ endereco_existe endereco_id db ->
   PUT_endereco endereco_id endereco db = (Erro 404 "Endereço não encontrado", db)) /\
  (endereco_existe endereco_id db ->
   exists l1 e l2,
     enderecos db = l1 ++ e :: l2 /\ Endereco.id e = endereco_id /\
     (forall y, In y (l1 ++ l2) -> Endereco.id y <> endereco_id) /\
     (let e' :=
        Endereco.mk (Endereco.id e) (EnderecoBase.rua endereco)
          (EnderecoBase.cidade endereco) (EnderecoBase.cep endereco)
          (Endereco.usuario_id e) (Endereco.criado_em e) in
      PUT_endereco endereco_id endereco db =
      (Ok 200 e',
       mkBD (usuarios db) (l1 ++ e' :: l2) (seq_usuarios db) (seq_enderecos db))) /\
     (forall campos,
        validar_EnderecoBase campos = Some endereco -> dict_get "cep" campos = None ->
        let e' :=
          Endereco.mk (Endereco.id e) (EnderecoBase.rua endereco)
            (EnderecoBase.cidade endereco) None
            (Endereco.usuario_id e) (Endereco.criado_em e) in
        PUT_endereco_json endereco_id (JObj campos) db =
        (Ok 200 e',
         mkBD (usuarios db) (l1 ++ e' :: l2) (seq_usuarios db) (seq_enderecos db)))).
Proof.
  intros Hok. split.
  - intros Hno. unfold PUT_endereco, rota. now rewrite atualizar_endereco_ausente.
  - intros Hyes.
    destruct (atualizar_endereco_grava db endereco_id endereco (pk_enderecos db Hok) Hyes)
      as (l1 & e & l2 & Heq & Hid & Hne & Hrun).
    exists l1, e, l2. repeat (split; [assumption|]).
    cbv zeta in *.
    assert (Hput : PUT_endereco endereco_id endereco db =
              (Ok 200
                 (Endereco.mk (Endereco.id e) (EnderecoBase.rua endereco)
                    (EnderecoBase.cidade endereco) (EnderecoBase.cep endereco)
                    (Endereco.usuario_id e) (Endereco.criado_em e)),
               mkBD (usuarios db)
                 (l1 ++ Endereco.mk (Endereco.id e) (EnderecoBase.rua endereco)
                          (EnderecoBase.cidade endereco) (EnderecoBase.cep endereco)
                          (Endereco.usuario_id e) (Endereco.criado_em e) :: l2)
                 (seq_usuarios db) (seq_enderecos db))).
    { unfold PUT_endereco, rota. now rewrite Hrun. }
    split; [exact Hput|].
    intros campos Hval Hcep. unfold PUT_endereco_json. rewrite Hval, Hput.
    now rewrite (validar_sem_cep campos endereco Hcep Hval).
Qed.

Lemma atualizar_endereco_casos_witness :
  let ana := UsuarioCreate.mk "Ana" "ana@example.com" in
  let casa := EnderecoBase.mk "Rua A, 1" "Recife" (Some "50000-000") in
  let db := executar [PostUsuarios 10 ana; PostEnderecos 11 1 casa] bd_vazio in
  PUT_endereco 5 casa db = (Erro 404 "Endereço não encontrado", db) /\
  PUT_endereco_json 1 (JObj [("rua", JStr "Rua B, 2"); ("cidade", JStr "Olinda")]) db =
  (Ok 200 (Endereco.mk 1 "Rua B, 2" "Olinda" None 1 11),
   mkBD (usuarios db) [Endereco.mk 1 "Rua B, 2" "Olinda" None 1 11] 2 2).
Proof.
  intros ana casa db.
  assert (Hok : bd_ok db) by apply bd_ok_executar, bd_ok_vazio.
  split.
  - apply (atualizar_endereco_casos db 5 casa Hok).
    intros (e & [<-|[]] & Hid). discriminate Hid.
  - destruct (atualizar_endereco_casos db 1 (EnderecoBase.mk "Rua B, 2" "Olinda" None) Hok)
      as [_ H].
    destruct H as (l1 & e & l2 & Heq & Hid & Hne & _ & Hjson).
    { eexists. split; [left; reflexivity|reflexivity]. }
    destruct l1 as [|x l1]; [|destruct l1; discriminate Heq].
    injection Heq as <- <-.
    exact (Hjson [("rua", JStr "Rua B, 2"); ("cidade", JStr "Olinda")] eq_refl eq_refl).
Defined.

(** ** Reading a user *)

Lemma length_filter_count (k : Z) (l : list Endereco.t) :
  List.length (filter (fun e => Endereco.usuario_id e =? k) l) =
  count_occ Z.eq_dec (map Endereco.usuario_id l) k.
Proof.
  induction l as [|e l IH]; simpl; [reflexivity|].
  destruct (Z.eq_dec (Endereco.usuario_id e) k) as [Heq|Hne].
  - rewrite (proj2 (Z.eqb_eq _ _) Heq). simpl. now rewrite IH.
  - rewrite (proj2 (Z.eqb_neq _ _) Hne). exact IH.
Qed.

Lemma obter_usuario_ausente (db : BD) (k : Z) :
  ~ usuario_existe k db -> obter_usuario k db = (inl usuario_nao_encontrado, db).
Proof.
  intros Hno. unfold obter_usuario, bind, query_usuario_first.
  pose proof (usuario_por_id db k) as H.
  destruct (first _) as [u|]; [|reflexivity].
  exfalso. apply Hno. now exists u.
Qed.

Lemma obter_usuario_presente (db : BD) (k : Z) :
  usuario_existe k db ->
  exists u, In u (usuarios db) /\ Usuario.id u = k /\
    obter_usuario k db = (inr (UsuarioComEnderecos.mk u (enderecos_de k db)), db).
Proof.
  intros Hyes. unfold obter_usuario, bind, query_usuario_first.
  pose proof (usuario_por_id db k) as H.
  destruct (first _) as [u|]; [|contradiction].
  destruct H as [Hin Hid]. exists u. repeat (split; [assumption|]).
  unfold relationship_enderecos, ret. now rewrite Hid.
Qed.

(** C5. Reading a user.  In every store: GET /usuarios/{id} answers 404
    (NotFound) exactly when no stored user has that id; otherwise it answers
    200 with a stored user of that id and with its addresses, which are
    exactly the stored addresses whose [usuario_id] is that id, in table
    order, with the same ids, and as many as the table has rows with that
    [usuario_id]; either way the store is unchanged. *)
Theorem obter_usuario_casos (db : BD) (usuario_id : Z) :
  (GET_usuario usuario_id db = (Erro 404 "Usuário não encontrado", db) <->
   ~ usuario_existe usuario_id db) /\
  ((exists status_code corpo, fst (GET_usuario usuario_id db) = Ok status_code corpo) <->
   usuario_existe usuario_id db) /\
  (forall status_code corpo,
     fst (GET_usuario usuario_id db) = Ok status_code corpo ->
     status_code = 200 /\
     In (UsuarioComEnderecos.usuario corpo) (usuarios db) /\
     Usuario.id (UsuarioComEnderecos.usuario corpo) = usuario_id /\
     UsuarioComEnderecos.enderecos corpo =
       filter (fun e => Endereco.usuario_id e =? usuario_id) (enderecos db) /\
     (forall e, In e (UsuarioComEnderecos.enderecos corpo) <->
                In e (enderecos db) /\ Endereco.usuario_id e = usuario_id) /\
     map Endereco.id (UsuarioComEnderecos.enderecos corpo) =
       map Endereco.id (filter (fun e => Endereco.usuario_id e =? usuario_id) (enderecos db)) /\
     List.length (UsuarioComEnderecos.enderecos corpo) =
       count_occ Z.eq_dec (map Endereco.usuario_id (enderecos db)) usuario_id) /\
  snd (GET_usuario usuario_id db) = db.
Proof.
  pose proof (usuario_por_id db usuario_id) as Hk.
  assert (Hcasos :
    (~ usuario_existe usuario_id db /\
     GET_usuario usuario_id db = (Erro 404 "Usuário não encontrado", db)) \/
    (usuario_existe usuario_id db /\
     exists u, In u (usuarios db) /\ Usuario.id u = usuario_id /\
       GET_usuario usuario_id db =
       (Ok 200 (UsuarioComEnderecos.mk u (enderecos_de usuario_id db)), db))).
  { destruct (first _) as [u|].
    - right. assert (Hyes : usuario_existe usuario_id db) by now exists u.
      split; [exact Hyes|].
      destruct (obter_usuario_presente db usuario_id Hyes) as (u' & Hin & Hid & Hrun).
      exists u'. repeat (split; [assumption|]).
      unfold GET_usuario, rota. now rewrite Hrun.
    - left. split; [exact Hk|].
      unfold GET_usuario, rota. now rewrite obter_usuario_ausente. }
  clear Hk. destruct Hcasos as [[Hno Hrun]|[Hyes (u & Hin & Hid & Hrun)]]; rewrite Hrun.
  - split; [tauto|]. split; [|split; [|reflexivity]].
    + split; [intros (s & c & H); discriminate H | contradiction].
    + intros s c H. discriminate H.
  - split; [|split; [|split; [|reflexivity]]].
    + split; [intros H; discriminate H | contradiction].
    + split; [auto | intros _; do 2 eexists; reflexivity].
    + intros s c [= <- <-]. cbn. unfold enderecos_de.
      repeat (split; [solve [auto]|]). split; [|split; [reflexivity|]].
      * intros e. rewrite filter_In, Z.eqb_eq. reflexivity.
      * apply length_filter_count.
Qed.

(** ** Listing users *)

Lemma atender_PostUsuarios_novo (db : BD) (agora : Z) (usuario : UsuarioCreate.t) :
  (forall u, In u (usuarios db) -> Usuario.id u < seq_usuarios db) ->
  ~ email_cadastrado (UsuarioCreate.email usuario) db ->
  atender (PostUsuarios agora usuario) db =
  mkBD (usuarios db ++ numerar (seq_usuarios db) [(agora, usuario)]) (enderecos db)
       (seq_usuarios db + 1) (seq_enderecos db).
Proof.
  intros Hseq Hnew. simpl. unfold POST_usuarios, rota.
  now rewrite criar_usuario_novo.
Qed.

(** Users of pairwise different emails, none of them in the store, are all
    created, and sit at the end of the table in the order of their
    requests, numbered from the counter on. *)
Lemma executar_criar_todos (novos : list (Z * UsuarioCreate.t)) (db : BD) :
  (forall u, In u (usuarios db) -> Usuario.id u < seq_usuarios db) ->
  NoDup (map (fun x => UsuarioCreate.email (snd x)) novos) ->
  (forall x, In x novos -> ~ email_cadastrado (UsuarioCreate.email (snd x)) db) ->
  executar (criar_todos novos) db =
  mkBD (usuarios db ++ numerar (seq_usuarios db) novos) (enderecos db)
       (seq_usuarios db + Z.of_nat (List.length novos)) (seq_enderecos db).
Proof.
  revert db. induction novos as [|[agora usuario] resto IH]; intros db Hseq Hnd Hnew.
  - destruct db. cbn. now rewrite app_nil_r, Z.add_0_r.
  - cbn [criar_todos map executar fold_left fst snd].
    change (fold_left (fun d r => atender r d) (map _ resto) ?d)
      with (executar (criar_todos resto) d).
    rewrite atender_PostUsuarios_novo; [|exact Hseq|apply (Hnew (agora, usuario)); now left].
    cbn in Hnd. inversion Hnd as [|? ? Hnin Hnd']; subst.
    rewrite IH; cbn [usuarios enderecos seq_usuarios seq_enderecos numerar].
    + rewrite <- app_assoc. cbn [app List.length]. f_equal. lia.
    + intros u Hu. apply in_app_or in Hu as [Hu|[<-|[]]]; [specialize (Hseq u Hu)|cbn]; lia.
    + exact Hnd'.
    + intros x Hx (u & Hu & He). cbn in Hu. apply in_app_or in Hu as [Hu|[<-|[]]].
      * apply (Hnew x); [now right|]. now exists u.
      * apply Hnin. cbn in He. rewrite He. now apply (in_map (fun x => UsuarioCreate.email (snd x))).
Qed.

(** C6, as stated, fails.  [limit] is any [int]: with [limit = -1] (and
    [skip = 0], on the empty store) the query is refused and GET /usuarios
    ends in HTTP 500.  (No answer could do what is claimed there: a list
    has no fewer than 0 rows, and at most -1 are asked for.) *)
Lemma listar_usuarios_limit_negativo :
  GET_usuarios 0 (-1) bd_vazio = (Erro 500 "Internal Server Error", bd_vazio).
Proof. reflexivity. Qed.

Lemma GET_usuarios_dentro (db : BD) (skip limit : Z) :
  0 <= skip <= MAX_BIGINT -> 0 <= limit <= MAX_BIGINT ->
  GET_usuarios skip limit db =
  (Ok 200 (firstn (Z.to_nat limit) (skipn (Z.to_nat skip) (usuarios db))), db).
Proof.
  intros Hs Hl.
  unfold GET_usuarios, rota, listar_usuarios, query_usuarios_all, offset_limit_all.
  rewrite (proj2 (Z.ltb_ge skip 0)), (proj2 (Z.ltb_ge limit 0)),
    (proj2 (Z.ltb_ge MAX_BIGINT skip)), (proj2 (Z.ltb_ge MAX_BIGINT limit)) by lia.
  reflexivity.
Qed.

(** The ids of [usuarios] grow along the table: rows are appended with the
    counter's value, which is above every id in use. *)
Lemma sorted_snoc (l : list Z) (y : Z) :
  StronglySorted Z.lt l -> (forall x, In x l -> x < y) -> StronglySorted Z.lt (l ++ [y]).
Proof.
  induction l as [|a l IH]; intros Hs Hlt; cbn.
  - repeat constructor.
  - apply StronglySorted_inv in Hs as [Hs Hall]. constructor.
    + apply IH; [exact Hs|]. intros x Hx. apply Hlt. now right.
    + apply Forall_app. split; [exact Hall|]. constructor; [|constructor].
      apply Hlt. now left.
Qed.

Lemma sorted_map_filter {A : Type} (chave : A -> Z) (p : A -> bool) (linhas : list A) :
  StronglySorted Z.lt (map chave linhas) ->
  StronglySorted Z.lt (map chave (filter p linhas)).
Proof.
  induction linhas as [|a l IH]; cbn; intros Hs; [constructor|].
  apply StronglySorted_inv in Hs as [Hs Hall].
  destruct (p a); cbn; [|auto]. constructor; [auto|].
  rewrite Forall_forall in *. intros x Hx. apply Hall.
  apply in_map_iff in Hx as (y & <- & Hy). apply filter_In in Hy as [Hy _].
  now apply in_map.
Qed.

Lemma ids_crescentes_executar (historia : list Requisicao) (db : BD) :
  StronglySorted Z.lt (map Usuario.id (usuarios db)) /\
  (forall u, In u (usuarios db) -> Usuario.id u < seq_usuarios db) ->
  StronglySorted Z.lt (map Usuario.id (usuarios (executar historia db))) /\
  (forall u, In u (usuarios (executar historia db)) ->
     Usuario.id u < seq_usuarios (executar historia db)).
Proof.
  apply (preserva_executar
           (fun d => StronglySorted Z.lt (map Usuario.id (usuarios d)) /\
                     (forall u, In u (usuarios d) -> Usuario.id u < seq_usuarios d))).
  - intros agora nome email d [Hs Hlt]. unfold insert_usuario.
    destruct (existsb _ _); cbn.
    + split; [exact Hs|]. intros u Hu. specialize (Hlt u Hu). lia.
    + split.
      * rewrite map_app. cbn. apply sorted_snoc; [exact Hs|].
        intros x Hx. apply in_map_iff in Hx as (u & <- & Hu). auto.
      * intros u Hu. apply in_app_or in Hu as [Hu|[<-|[]]];
          [specialize (Hlt u Hu)|cbn]; lia.
  - intros k nome email d [Hs Hlt]. unfold update_usuario.
    destruct (existsb _ _); cbn; [auto|]. split.
    + now rewrite map_id_set_usuario.
    + intros u Hu. apply in_map_iff in Hu as (y & <- & Hy).
      rewrite set_usuario_id. auto.
  - intros u d [Hs Hlt]. cbn. split.
    + now apply sorted_map_filter.
    + intros x Hx. apply filter_In in Hx as [Hx _]. auto.
  - intros agora rua cidade cep k d H. unfold insert_endereco.
    destruct (existsb _ _); exact H.
  - intros k rua cidade cep d H. exact H.
  - intros e d H. exact H.
Qed.

(** C6 (amended). Listing users.  In every store, for [skip] and [limit]
    from 0 up to the store's largest integer, GET /usuarios answers 200 with
    the stored users in the order of the table, the first [skip] dropped and
    of the rest the first [limit] kept, so at most [limit] of them, and the
    store is unchanged; without query parameters it is the first 10.  The
    order of the table is the order of creation (ids grow along it) in every
    store reached from the empty one by requests none of which is a PUT or a
    DELETE /usuarios/{id}.  After A, B, C, D, E of pairwise different emails are
    created in that order into the empty store, skip=2 and limit=2 give
    exactly C and D. *)
Theorem listar_usuarios_paginado
    (db : BD) (skip limit : Z) (historia : list Requisicao)
    (ta tb tc td te : Z) (a b c d e : UsuarioCreate.t) :
  0 <= skip <= MAX_BIGINT -> 0 <= limit <= MAX_BIGINT ->
  let pagina := firstn (Z.to_nat limit) (skipn (Z.to_nat skip) (usuarios db)) in
  GET_usuarios skip limit db = (Ok 200 pagina, db) /\
  Z.of_nat (List.length pagina) <= limit /\
  GET_usuarios_query None None db = (Ok 200 (firstn 10 (usuarios db)), db) /\
  (forallb so_acrescenta_usuarios historia = true ->
   StronglySorted Z.lt (map Usuario.id (usuarios (executar historia bd_vazio)))) /\
  (NoDup (map UsuarioCreate.email [a; b; c; d; e]) ->
   fst (GET_usuarios 2 2
          (executar [PostUsuarios ta a; PostUsuarios tb b; PostUsuarios tc c;
                     PostUsuarios td d; PostUsuarios te e] bd_vazio)) =
   Ok 200 [Usuario.mk 3 (UsuarioCreate.nome c) (UsuarioCreate.email c) tc;
           Usuario.mk 4 (UsuarioCreate.nome d) (UsuarioCreate.email d) td]).
Proof.
  intros Hskip Hlimit pagina. split; [|split; [|split; [|split]]].
  - now apply GET_usuarios_dentro.
  - unfold pagina. pose proof (firstn_le_length (Z.to_nat limit)
      (skipn (Z.to_nat skip) (usuarios db))). lia.
  - reflexivity.
  - intros _. apply ids_crescentes_executar. cbn. split; [constructor|intros u []].
  - intros Hnd.
    change [PostUsuarios ta a; PostUsuarios tb b; PostUsuarios tc c;
            PostUsuarios td d; PostUsuarios te e]
      with (criar_todos [(ta, a); (tb, b); (tc, c); (td, d); (te, e)]).
    rewrite executar_criar_todos.
    + reflexivity.
    + intros u [].
    + exact Hnd.
    + intros x _ (u & [] & _).
Qed.

Lemma listar_usuarios_paginado_witness :
  let u n := UsuarioCreate.mk n (n ++ "@example.com")%string in
  let historia := [PostUsuarios 1 (u "a"); PostUsuarios 2 (u "b"); PostUsuarios 3 (u "c");
                   PostUsuarios 4 (u "d"); PostUsuarios 5 (u "e")] in
  fst (GET_usuarios 2 2 (executar historia bd_vazio)) =
  Ok 200 [Usuario.mk 3 "c" "c@example.com" 3; Usuario.mk 4 "d" "d@example.com" 4] /\
  StronglySorted Z.lt (map Usuario.id (usuarios (executar historia bd_vazio))).
Proof.
  intros u historia.
  assert (H0 : 0 <= 2 <= MAX_BIGINT) by (unfold MAX_BIGINT; lia).
  pose proof (listar_usuarios_paginado bd_vazio 2 2 historia 1 2 3 4 5
                (u "a") (u "b") (u "c") (u "d") (u "e") H0 H0) as H.
  destruct H as (_ & _ & _ & Hord & Hcd). split.
  - apply Hcd. repeat constructor; cbn; intuition discriminate.
  - apply Hord. reflexivity.
Defined.

(** ** Creating an address *)

Lemma criar_endereco_ausente (db : BD) (agora k : Z) (endereco : EnderecoBase.t) :
  ~ usuario_existe k db -> criar_endereco agora k endereco db = (inl usuario_nao_encontrado, db).
Proof.
  intros Hno. unfold criar_endereco, bind, query_usuario_first.
  pose proof (usuario_por_id db k) as H.
  destruct (first _) as [u|]; [|reflexivity].
  exfalso. apply Hno. now exists u.
Qed.

Lemma criar_endereco_novo (db : BD) (agora k : Z) (endereco : EnderecoBase.t) :
  (forall e, In e (enderecos db) -> Endereco.id e < seq_enderecos db) ->
  usuario_existe k db ->
  let novo :=
    Endereco.mk (seq_enderecos db) (EnderecoBase.rua endereco) (EnderecoBase.cidade endereco)
      (EnderecoBase.cep endereco) k agora in
  criar_endereco agora k endereco db =
  (inr novo, mkBD (usuarios db) (enderecos db ++ [novo])
                  (seq_usuarios db) (seq_enderecos db + 1)).
Proof.
  intros Hseq Hyes novo. unfold criar_endereco, bind, query_usuario_first.
  pose proof (usuario_por_id db k) as H.
  destruct (first _) as [u|] eqn:E; [|contradiction].
  unfold insert_endereco.
  assert (Hex : existsb (fun x => Usuario.id x =? k) (usuarios db) = true).
  { apply existsb_exists. exists u. split; [tauto|]. now apply Z.eqb_eq. }
  rewrite Hex. unfold refresh_endereco. cbn [enderecos Endereco.id].
  rewrite filter_app, filter_nenhum.
  - cbn. rewrite Z.eqb_refl. reflexivity.
  - intros x Hx. apply Z.eqb_neq. specialize (Hseq x Hx). lia.
Qed.



(** ** Deleting an address *)

Lemma deletar_endereco_presente (db : BD) (k : Z) :
  NoDup (map Endereco.id (enderecos db)) ->
  endereco_existe k db ->
  exists l1 e l2,
    enderecos db = l1 ++ e :: l2 /\ Endereco.id e = k /\
    (forall y, In y (l1 ++ l2) -> Endereco.id y <> k) /\
    deletar_endereco k db =
    (inr tt, mkBD (usuarios db) (l1 ++ l2) (seq_usuarios db) (seq_enderecos db)).
Proof.
  intros Hpk Hyes. unfold deletar_endereco, bind, query_endereco_first.
  pose proof (endereco_por_id db k) as H.
  destruct (first _) as [e|]; [|contradiction].
  destruct H as [Hin Hid].
  destruct (in_split_chave Endereco.id _ _ Hpk Hin) as (l1 & l2 & Heq & Hne).
  rewrite Hid in Hne. exists l1, e, l2. repeat (split; [assumption|]).
  unfold delete_endereco. rewrite Hid, Heq.
  now rewrite (filter_fora_chave Endereco.id l1 l2 e k Hid Hne).
Qed.

(** C9. Deleting an address.  In a store the schema allows: DELETE
    /enderecos/{id} of an absent id answers 404 "Endereço não encontrado"
    (NotFound) and the store is unchanged; of an existing id it answers 204
    and takes out of [enderecos] the one row of that id, every other address
    kept, in place, and users and counters as they were. *)
Theorem deletar_endereco_casos (db : BD) (endereco_id : Z) :
  bd_ok db ->
  (~ endereco_existe endereco_id db ->
   DELETE_endereco endereco_id db = (Erro 404 "Endereço não encontrado", db)) /\
  (endereco_existe endereco_id db ->
   exists l1 e l2,
     enderecos db = l1 ++ e :: l2 /\ Endereco.id e = endereco_id /\
     (forall y, In y (l1 ++ l2) -> Endereco.id y <> endereco_id) /\
     DELETE_endereco endereco_id db =
     (Ok 204 tt, mkBD (usuarios db) (l1 ++ l2) (seq_usuarios db) (seq_enderecos db))).
Proof.
  intros Hok. split.
  - intros Hno. unfold DELETE_endereco, rota. now rewrite deletar_endereco_ausente.
  - intros Hyes.
    destruct (deletar_endereco_presente db endereco_id (pk_enderecos db Hok) Hyes)
      as (l1 & e & l2 & Heq & Hid & Hne & Hrun).
    exists l1, e, l2. repeat (split; [assumption|]).
    unfold DELETE_endereco, rota. now rewrite Hrun.
Qed.

Lemma deletar_endereco_casos_witness :
  let ana := UsuarioCreate.mk "Ana" "ana@example.com" in
  let casa := EnderecoBase.mk "Rua A, 1" "Recife" None in
  let db := executar [PostUsuarios 10 ana; PostEnderecos 11 1 casa] bd_vazio in
  DELETE_endereco 5 db = (Erro 404 "Endereço não encontrado", db) /\
  DELETE_endereco 1 db = (Ok 204 tt, mkBD (usuarios db) [] 2 2).
Proof.
  intros ana casa db.
  assert (Hok : bd_ok db) by apply bd_ok_executar, bd_ok_vazio.
  split.
  - apply (deletar_endereco_casos db 5 Hok).
    intros (e & [<-|[]] & Hid). discriminate Hid.
  - destruct (deletar_endereco_casos db 1 Hok) as [_ H].
    destruct H as (l1 & e & l2 & Heq & _ & _ & Hrun).
    { eexists. split; [left; reflexivity|reflexivity]. }
    destruct l1 as [|x l1]; [|destruct l1; discriminate Heq].
    injection Heq as <- <-. exact Hrun.
Defined.

(** ** The owner of a new address *)

Lemma usuario_existe_ou_nao (db : BD) (k : Z) :
  usuario_existe k db \/ ~ usuario_existe k db.
Proof.
  pose proof (usuario_por_id db k) as H.
  destruct (first _) as [u|]; [left; now exists u | right; exact H].
Qed.

Lemma validar_EnderecoBase_ext (campos campos' : list (string * JSON)) :
  (forall k, k <> "usuario_id"%string -> dict_get k campos = dict_get k campos') ->
  validar_EnderecoBase campos = validar_EnderecoBase campos'.
Proof.
  intros H. unfold validar_EnderecoBase.
  rewrite (H "rua"%string), (H "cidade"%string), (H "cep"%string);
    [reflexivity | discriminate | discriminate | discriminate].
Qed.

Lemma dict_get_app (k : string) (l1 l2 : list (string * JSON)) :
  dict_get k (l1 ++ l2) =
  match dict_get k l1 with Some v => Some v | None => dict_get k l2 end.
Proof.
  induction l1 as [|[k' v] l1 IH]; simpl; [reflexivity|].
  destruct (k' =? k)%string; [reflexivity|exact IH].
Qed.

(** C10. The owner of a new address.  In a store the schema allows, for
    every POST /usuarios/{id}/enderecos: two bodies that agree on every key
    but "usuario_id" get the same answer and leave the same store; so a
    "usuario_id" put in the body changes nothing; and whenever the request
    succeeds, the address it answers with is the one row added to
    [enderecos], and its [usuario_id] is the id of the path. *)
Theorem criar_endereco_usuario_da_rota
    (db : BD) (agora usuario_id : Z) (campos campos' : list (string * JSON)) :
  bd_ok db ->
  (forall k, k <> "usuario_id"%string -> dict_get k campos = dict_get k campos') ->
  POST_enderecos_json agora usuario_id (JObj campos) db =
  POST_enderecos_json agora usuario_id (JObj campos') db /\
  (forall v,
     POST_enderecos_json agora usuario_id (JObj (("usuario_id"%string, v) :: campos)) db =
     POST_enderecos_json agora usuario_id (JObj campos) db) /\
  (forall status_code novo db',
     POST_enderecos_json agora usuario_id (JObj campos) db = (Ok status_code novo, db') ->
     Endereco.usuario_id novo = usuario_id /\
     usuarios db' = usuarios db /\
     enderecos db' = enderecos db ++ [novo]).
Proof.
  intros Hok Hext. split; [|split].
  - unfold POST_enderecos_json. now rewrite (validar_EnderecoBase_ext campos campos' Hext).
  - intros v. reflexivity.
  - intros s novo db'. unfold POST_enderecos_json.
    destruct (validar_EnderecoBase campos) as [endereco|]; [|discriminate].
    unfold POST_enderecos, rota.
    destruct (usuario_existe_ou_nao db usuario_id) as [H|H].
    + rewrite (criar_endereco_novo db agora usuario_id endereco
                 (seq_enderecos_acima db Hok) H).
      intros [= _ <- <-]. cbn. auto.
    + rewrite (criar_endereco_ausente db agora usuario_id endereco H). discriminate.
Qed.

Lemma criar_endereco_usuario_da_rota_witness :
  let ana := UsuarioCreate.mk "Ana" "ana@example.com" in
  let bia := UsuarioCreate.mk "Bia" "bia@example.com" in
  let db := executar [PostUsuarios 10 ana; PostUsuarios 11 bia] bd_vazio in
  let corpo := [("rua", JStr "Rua A, 1"); ("cidade", JStr "Recife")] in
  POST_enderecos_json 12 1 (JObj (corpo ++ [("usuario_id", JInt 2)])) db =
  (Ok 201 (Endereco.mk 1 "Rua A, 1" "Recife" None 1 12),
   mkBD (usuarios db) [Endereco.mk 1 "Rua A, 1" "Recife" None 1 12] 3 2).
Proof.
  intros ana bia db corpo.
  assert (Hok : bd_ok db) by apply bd_ok_executar, bd_ok_vazio.
  destruct (criar_endereco_usuario_da_rota db 12 1
              (corpo ++ [("usuario_id", JInt 2)]) corpo Hok) as [Heq _].
  - intros k Hk. rewrite dict_get_app.
    destruct (dict_get k corpo); [reflexivity|].
    cbn [dict_get]. rewrite (proj2 (String.eqb_neq _ _)); [reflexivity|congruence].
  - rewrite Heq. reflexivity.
Defined.

(** ** Two requests racing for one email *)

(** Taken one after the other, the two steps of a request are the route. *)
Lemma passo_em_serie (agora : Z) (usuario : UsuarioCreate.t) (db : BD) :
  let (f, db1) := passo_criar_usuario agora usuario Inicio db in
  passo_criar_usuario agora usuario f db1 =
  (Fim (fst (POST_usuarios agora usuario db)), snd (POST_usuarios agora usuario db)).
Proof.
  unfold passo_criar_usuario, criar_usuario_consulta, query_usuario_first.
  unfold POST_usuarios, rota, criar_usuario, bind, query_usuario_first,
    criar_usuario_gravacao.
  destruct (first _); [reflexivity|].
  unfold bind. destruct (insert_usuario _ _ _ db) as [[e|k] db1]; [reflexivity|].
  destruct (refresh_usuario k db1) as [[e|u] db2]; reflexivity.
Qed.

(** One step of a request keeps every email the store has, and ends in a
    success only if the request had succeeded already or its email was not
    in the store before the step and is in it after. *)
Lemma passo_criar_usuario_email (agora : Z) (usuario : UsuarioCreate.t) (f : Fase) (db : BD) :
  (forall email, email_cadastrado email db ->
     email_cadastrado email (snd (passo_criar_usuario agora usuario f db))) /\
  (sucesso (fst (passo_criar_usuario agora usuario f db)) ->
   sucesso f \/
   (~ email_cadastrado (UsuarioCreate.email usuario) db /\
    email_cadastrado (UsuarioCreate.email usuario)
      (snd (passo_criar_usuario agora usuario f db)))).
Proof.
  destruct f as [|[x|]|r]; cbn; try tauto.
  unfold rota, criar_usuario_gravacao, bind, insert_usuario.
  destruct (existsb _ _) eqn:E; cbn; [tauto|].
  unfold refresh_usuario. destruct (first _); cbn.
  - split.
    + intros email (y & Hy & He). exists y. split; [|exact He].
      apply in_or_app. now left.
    + intros _. right. split.
      * apply existsb_false_first in E.
        pose proof (usuario_por_email db (UsuarioCreate.email usuario)) as H.
        now rewrite E in H.
      * eexists. split; [apply in_or_app; right; left; reflexivity|reflexivity].
  - split; [|tauto].
    intros email (y & Hy & He). exists y. split; [|exact He].
    apply in_or_app. now left.
Qed.

(** Whatever the schedule, two requests with one email never both succeed:
    the unique index lets one INSERT through. *)
Lemma corrida_no_maximo_um (agenda : list bool)
    (agora1 : Z) (usuario1 : UsuarioCreate.t) (agora2 : Z) (usuario2 : UsuarioCreate.t)
    (f1 f2 : Fase) (db : BD) :
  UsuarioCreate.email usuario1 = UsuarioCreate.email usuario2 ->
  (sucesso f1 \/ sucesso f2 -> email_cadastrado (UsuarioCreate.email usuario1) db) ->
  ~ (sucesso f1 /\ sucesso f2) ->
  let '(f1', f2', _) := corrida agenda agora1 usuario1 agora2 usuario2 f1 f2 db in
  ~ (sucesso f1' /\ sucesso f2').
Proof.
  intros Hemail. revert f1 f2 db.
  induction agenda as [|[|] resto IH]; intros f1 f2 db Hin Hnot; cbn [corrida].
  - exact Hnot.
  - pose proof (passo_criar_usuario_email agora2 usuario2 f2 db) as [Hmono Hsuc].
    destruct (passo_criar_usuario agora2 usuario2 f2 db) as [f2' db'].
    cbn [fst snd] in *. rewrite <- Hemail in Hsuc. apply IH.
    + intros [H1|H2]; [apply Hmono; auto|].
      destruct (Hsuc H2) as [H|[_ H]]; [apply Hmono; auto|exact H].
    + intros [H1 H2]. destruct (Hsuc H2) as [H|[H _]]; [apply Hnot; auto|].
      apply H, Hin. now left.
  - pose proof (passo_criar_usuario_email agora1 usuario1 f1 db) as [Hmono Hsuc].
    destruct (passo_criar_usuario agora1 usuario1 f1 db) as [f1' db'].
    cbn [fst snd] in *. apply IH.
    + intros [H1|H2]; [|apply Hmono; auto].
      destruct (Hsuc H1) as [H|[_ H]]; [apply Hmono; auto|exact H].
    + intros [H1 H2]. destruct (Hsuc H1) as [H|[H _]]; [apply Hnot; auto|].
      apply H, Hin. now right.
Qed.

(** From the start, whatever the schedule and the store: of two POST
    /usuarios with one email, at most one is answered with a success. *)
Theorem corrida_um_sucesso (agenda : list bool)
    (agora1 : Z) (usuario1 : UsuarioCreate.t) (agora2 : Z) (usuario2 : UsuarioCreate.t)
    (db : BD) :
  UsuarioCreate.email usuario1 = UsuarioCreate.email usuario2 ->
  ~ (sucesso (fst (fst (corrida agenda agora1 usuario1 agora2 usuario2 Inicio Inicio db))) /\
     sucesso (snd (fst (corrida agenda agora1 usuario1 agora2 usuario2 Inicio Inicio db)))).
Proof.
  intros Hemail.
  pose proof (corrida_no_maximo_um agenda agora1 usuario1 agora2 usuario2
                Inicio Inicio db Hemail) as H.
  destruct (corrida _ _ _ _ _ _ _ _) as [[f1 f2] db']. cbn [fst snd].
  apply H; cbn; tauto.
Qed.

Lemma corrida_um_sucesso_witness :
  let ana := UsuarioCreate.mk "Ana" "ana@example.com" in
  ~ (sucesso (fst (fst (corrida [true; false; true; false] 10 ana 11 ana
                           Inicio Inicio bd_vazio))) /\
     sucesso (snd (fst (corrida [true; false; true; false] 10 ana 11 ana
                           Inicio Inicio bd_vazio)))).
Proof.
  intros ana.
  exact (corrida_um_sucesso [true; false; true; false] 10 ana 11 ana bd_vazio eq_refl).
Defined.

(** C8. Two POST /usuarios with one email, into the empty store.  When the
    second request runs its check before the first has committed, both
    checks pass; the first commit succeeds (201) and the second is refused
    by the unique index, an [IntegrityError] no handler catches: the caller
    gets HTTP 500, not 400 "Email já cadastrado"; the refused INSERT stores
    no row and uses up id 2.  Served one after the other, the second request
    does get the 400, and no id is used up. *)
Theorem corrida_mesmo_email :
  let ana := UsuarioCreate.mk "Ana" "ana@example.com" in
  let outra := UsuarioCreate.mk "Ana B" "ana@example.com" in
  let linha := Usuario.mk 1 "Ana" "ana@example.com" 10 in
  corrida [false; true; false; true] 10 ana 11 outra Inicio Inicio bd_vazio =
  (Fim (Ok 201 linha), Fim (Erro 500 "Internal Server Error"), mkBD [linha] [] 3 1) /\
  corrida [false; false; true; true] 10 ana 11 outra Inicio Inicio bd_vazio =
  (Fim (Ok 201 linha), Fim (Erro 400 "Email já cadastrado"), mkBD [linha] [] 2 1).
Proof. split; reflexivity. Qed.

(** ** The addresses of a user *)

Lemma obter_enderecos_usuario_ausente (db : BD) (k : Z) :
  ~ usuario_existe k db ->
  obter_enderecos_usuario k db = (inl usuario_nao_encontrado, db).
Proof.
  intros Hno. unfold obter_enderecos_usuario, bind, query_usuario_first.
  pose proof (usuario_por_id db k) as H.
  destruct (first _) as [u|]; [|reflexivity].
  exfalso. apply Hno. now exists u.
Qed.

Lemma obter_enderecos_usuario_presente (db : BD) (k : Z) :
  usuario_existe k db ->
  obter_enderecos_usuario k db = (inr (enderecos_de k db), db).
Proof.
  intros Hyes. unfold obter_enderecos_usuario, bind, query_usuario_first.
  pose proof (usuario_por_id db k) as H.
  destruct (first _) as [u|]; [|contradiction].
  destruct H as [_ Hid]. unfold relationship_enderecos. now rewrite Hid.
Qed.

(** X2. GET /usuarios/{id}/enderecos.  In every store: it answers 404
    "Usuário não encontrado" exactly when no stored user has the id, and
    otherwise 200 with the stored addresses whose [usuario_id] is the id, in
    table order; the store is unchanged either way; and the list is the one
    GET /usuarios/{id} carries in its body. *)
Theorem obter_enderecos_usuario_casos (db : BD) (usuario_id : Z) :
  (GET_enderecos usuario_id db = (Erro 404 "Usuário não encontrado", db) <->
   ~ usuario_existe usuario_id db) /\
  (GET_enderecos usuario_id db =
   (Ok 200 (filter (fun e => Endereco.usuario_id e =? usuario_id) (enderecos db)), db) <->
   usuario_existe usuario_id db) /\
  snd (GET_enderecos usuario_id db) = db /\
  (forall status_code corpo,
     fst (GET_usuario usuario_id db) = Ok status_code corpo ->
     fst (GET_enderecos usuario_id db) = Ok 200 (UsuarioComEnderecos.enderecos corpo)).
Proof.
  unfold GET_enderecos, GET_usuario, rota.
  destruct (usuario_existe_ou_nao db usuario_id) as [Hyes|Hno].
  - rewrite (obter_enderecos_usuario_presente db usuario_id Hyes).
    destruct (obter_usuario_presente db usuario_id Hyes) as (u & _ & _ & ->).
    cbn. unfold enderecos_de.
    repeat split; try tauto; try discriminate.
    intros s c [= _ <-]. reflexivity.
  - rewrite (obter_enderecos_usuario_ausente db usuario_id Hno).
    rewrite (obter_usuario_ausente db usuario_id Hno).
    cbn. repeat split; try tauto; try discriminate.
Qed.

(** ** What a request served on its own never does *)

Lemma first_filter_existe {A : Type} (p : A -> bool) (l : list A) (x : A) :
  In x l -> p x = true -> exists y, first (filter p l) = Some y.
Proof.
  intros Hin Hp. destruct (first (filter p l)) as [y|] eqn:E; [now exists y|].
  rewrite first_filter_None in E. rewrite (E x Hin) in Hp. discriminate.
Qed.

Lemma criar_usuario_limpa agora usuario db :
  so_falha_limpa (criar_usuario agora usuario) db.
Proof.
  unfold so_falha_limpa, criar_usuario, bind, query_usuario_first.
  destruct (first _) eqn:E; cbn; [auto|].
  unfold insert_usuario. apply existsb_false_first in E. rewrite E.
  unfold refresh_usuario. cbn [usuarios Usuario.id].
  edestruct (first_filter_existe (fun u => Usuario.id u =? seq_usuarios db)) as [y ->];
    [apply in_or_app; right; left; reflexivity | cbn; apply Z.eqb_refl | exact I].
Qed.

Lemma obter_usuario_limpa k db : so_falha_limpa (obter_usuario k) db.
Proof.
  unfold so_falha_limpa, obter_usuario, bind, query_usuario_first.
  destruct (first _); cbn; auto.
Qed.

Lemma atualizar_usuario_limpa k usuario db :
  so_falha_limpa (atualizar_usuario k usuario) db.
Proof.
  unfold so_falha_limpa, atualizar_usuario, bind, query_usuario_first.
  destruct (first _) as [u|] eqn:E; cbn; [|auto].
  apply first_filter_Some in E as [Hin Hid]. apply Z.eqb_eq in Hid.
  destruct (first _) eqn:E2; cbn; [auto|].
  unfold update_usuario. rewrite Hid. apply existsb_false_first in E2. rewrite E2.
  unfold refresh_usuario. cbn [usuarios].
  edestruct (first_filter_existe (fun x => Usuario.id x =? k)
               (map (set_usuario k (UsuarioCreate.nome usuario)
                       (UsuarioCreate.email usuario)) (usuarios db))) as [y ->];
    [apply in_map, Hin | rewrite set_usuario_id; now apply Z.eqb_eq | exact I].
Qed.

Lemma deletar_usuario_limpa k db : so_falha_limpa (deletar_usuario k) db.
Proof.
  unfold so_falha_limpa, deletar_usuario, bind, query_usuario_first.
  destruct (first _); cbn; auto.
Qed.

Lemma criar_endereco_limpa agora k endereco db :
  so_falha_limpa (criar_endereco agora k endereco) db.
Proof.
  unfold so_falha_limpa, criar_endereco, bind, query_usuario_first.
  destruct (first _) as [u|] eqn:E; cbn; [|auto].
  apply first_filter_Some in E as [Hin Hid].
  unfold insert_endereco.
  assert (Hex : existsb (fun x => Usuario.id x =? k) (usuarios db) = true)
    by (apply existsb_exists; eauto).
  rewrite Hex. unfold refresh_endereco. cbn [enderecos Endereco.id].
  edestruct (first_filter_existe (fun e => Endereco.id e =? seq_enderecos db)) as [y ->];
    [apply in_or_app; right; left; reflexivity | cbn; apply Z.eqb_refl | exact I].
Qed.

Lemma obter_enderecos_usuario_limpa k db : so_falha_limpa (obter_enderecos_usuario k) db.
Proof.
  unfold so_falha_limpa, obter_enderecos_usuario, bind, query_usuario_first.
  destruct (first _); cbn; auto.
Qed.

Lemma atualizar_endereco_limpa k endereco db :
  so_falha_limpa (atualizar_endereco k endereco) db.
Proof.
  unfold so_falha_limpa, atualizar_endereco, bind, query_endereco_first.
  destruct (first _) as [e|] eqn:E; cbn; [|auto].
  apply first_filter_Some in E as [Hin Hid]. apply Z.eqb_eq in Hid.
  unfold refresh_endereco. cbn [enderecos]. rewrite Hid.
  edestruct (first_filter_existe (fun x => Endereco.id x =? k)
               (map (set_endereco k (EnderecoBase.rua endereco)
                       (EnderecoBase.cidade endereco) (EnderecoBase.cep endereco))
                  (enderecos db))) as [y ->];
    [apply in_map, Hin | rewrite set_endereco_id; now apply Z.eqb_eq | exact I].
Qed.

Lemma deletar_endereco_limpa k db : so_falha_limpa (deletar_endereco k) db.
Proof.
  unfold so_falha_limpa, deletar_endereco, bind, query_endereco_first.
  destruct (first _); cbn; auto.
Qed.

(** A handler that only fails cleanly gives a route that answers its own
    status, or 400 or 404 with the store untouched. *)
Lemma rota_limpa {A} (f : A -> Corpo) (status_code : Z) (m : Sessao A) (db : BD) :
  so_falha_limpa m db ->
  match fst (corpo_como f (rota status_code m db)) with
  | Ok s _ => s = status_code
  | Erro s _ => (s = 400 \/ s = 404) /\ snd (corpo_como f (rota status_code m db)) = db
  end.
Proof.
  unfold so_falha_limpa, rota. destruct (m db) as [[e|a] db']; cbn; [|reflexivity].
  destruct e; cbn; try contradiction. intros [-> H]. auto.
Qed.

Lemma GET_usuarios_casos (skip limit : Z) (db : BD) :
  ((skip < 0 \/ limit < 0 \/ MAX_BIGINT < skip \/ MAX_BIGINT < limit) /\
   GET_usuarios skip limit db = (Erro 500 "Internal Server Error", db)) \/
  ((0 <= skip <= MAX_BIGINT /\ 0 <= limit <= MAX_BIGINT) /\
   GET_usuarios skip limit db =
   (Ok 200 (firstn (Z.to_nat limit) (skipn (Z.to_nat skip) (usuarios db))), db)).
Proof.
  unfold GET_usuarios, rota, listar_usuarios, query_usuarios_all, offset_limit_all.
  destruct (skip <? 0) eqn:Es; [left; apply Z.ltb_lt in Es; cbn; auto|].
  destruct (limit <? 0) eqn:El; [left; apply Z.ltb_lt in El; cbn; auto|].
  destruct (MAX_BIGINT <? skip) eqn:Ems; [left; apply Z.ltb_lt in Ems; cbn; auto|].
  destruct (MAX_BIGINT <? limit) eqn:Eml; [left; apply Z.ltb_lt in Eml; cbn; auto|].
  right. apply Z.ltb_ge in Es, El, Ems, Eml. cbn. auto.
Qed.

Lemma responder_casos (r : Requisicao) (db : BD) :
  match fst (responder r db) with
  | Ok s _ => s = status_da_rota r
  | Erro s _ =>
      snd (responder r db) = db /\
      ((s = 400 \/ s = 404) \/
       (s = 500 /\ exists skip limit, r = GetUsuarios skip limit))
  end.
Proof.
  destruct r; cbn [responder status_da_rota];
    try (match goal with
         | |- context [corpo_como ?f (?R _)] => unfold R
         | |- context [corpo_como ?f (?R _ _)] => unfold R
         | |- context [corpo_como ?f (?R _ _ _)] => unfold R
         | |- context [corpo_como ?f (?R _ _ _ _)] => unfold R
         end;
         match goal with
         | |- context [corpo_como ?f (rota ?s ?m ?d)] =>
             let H := fresh in
             assert (H : so_falha_limpa m d) by
               first [ apply criar_usuario_limpa | apply obter_usuario_limpa
                     | apply atualizar_usuario_limpa | apply deletar_usuario_limpa
                     | apply criar_endereco_limpa | apply obter_enderecos_usuario_limpa
                     | apply atualizar_endereco_limpa | apply deletar_endereco_limpa ];
             pose proof (rota_limpa f s m d H) as H';
             destruct (fst (corpo_como f (rota s m d))); tauto
         end).
  - destruct (GET_usuarios_casos skip limit db) as [[Hneg ->]|[_ ->]]; cbn.
    + split; [reflexivity|]. right. split; [reflexivity|]. eauto.
    + reflexivity.
  - cbn. reflexivity.
Qed.

Lemma snd_responder (r : Requisicao) (db : BD) : snd (responder r db) = atender r db.
Proof.
  destruct r; cbn [responder atender]; try reflexivity;
    match goal with
    | |- snd (corpo_como _ ?x) = _ => destruct x as [[s a|s d] db']; reflexivity
    end.
Qed.

(** X3. A request that is answered with an error leaves the store as it
    was, whichever of the ten routes it is and whatever the store. *)
Theorem erro_nao_altera (r : Requisicao) (db : BD) (status_code : Z) (detail : string) :
  fst (responder r db) = Erro status_code detail ->
  snd (responder r db) = db /\ atender r db = db.
Proof.
  intros H. pose proof (responder_casos r db) as Hc. rewrite H in Hc.
  destruct Hc as [Hdb _]. split; [exact Hdb|]. now rewrite <- snd_responder.
Qed.

Lemma erro_nao_altera_witness :
  let ana := UsuarioCreate.mk "Ana" "ana@example.com" in
  let db := executar [PostUsuarios 10 ana] bd_vazio in
  atender (PostUsuarios 11 (UsuarioCreate.mk "Outra" "ana@example.com")) db = db /\
  atender (PostEnderecos 12 9 (EnderecoBase.mk "Rua A, 1" "Recife" None)) db = db /\
  atender (GetUsuarios (-1) 10) db = db.
Proof.
  intros ana db. split; [|split].
  - exact (proj2 (erro_nao_altera
             (PostUsuarios 11 (UsuarioCreate.mk "Outra" "ana@example.com")) db
             400 "Email já cadastrado" eq_refl)).
  - exact (proj2 (erro_nao_altera
             (PostEnderecos 12 9 (EnderecoBase.mk "Rua A, 1" "Recife" None)) db
             404 "Usuário não encontrado" eq_refl)).
  - exact (proj2 (erro_nao_altera (GetUsuarios (-1) 10) db
             500 "Internal Server Error" eq_refl)).
Defined.





(** ** Updates, once more *)

Lemma set_usuario_set_usuario k nome email u :
  set_usuario k nome email (set_usuario k nome email u) = set_usuario k nome email u.
Proof.
  unfold set_usuario. destruct (Usuario.id u =? k) eqn:E; cbn; now rewrite E.
Qed.

Lemma set_endereco_set_endereco k rua cidade cep e :
  set_endereco k rua cidade cep (set_endereco k rua cidade cep e) =
  set_endereco k rua cidade cep e.
Proof.
  unfold set_endereco. destruct (Endereco.id e =? k) eqn:E; cbn; now rewrite E.
Qed.

(** When it gets as far as its UPDATE, [atualizar_usuario] returns what
    [refresh] reads in the table with the UPDATE applied to every row. *)
Lemma atualizar_usuario_como_map (db : BD) (k : Z) (usuario : UsuarioCreate.t) :
  usuario_existe k db -> ~ email_de_outro (UsuarioCreate.email usuario) k db ->
  atualizar_usuario k usuario db =
  refresh_usuario k
    (mkBD (map (set_usuario k (UsuarioCreate.nome usuario) (UsuarioCreate.email usuario))
              (usuarios db))
          (enderecos db) (seq_usuarios db) (seq_enderecos db)).
Proof.
  intros Hyes Hnew. unfold atualizar_usuario, bind, query_usuario_first.
  pose proof (usuario_por_id db k) as H.
  destruct (first _) as [u|]; [|contradiction]. destruct H as [_ Hid].
  pose proof (email_de_outro_first db k (UsuarioCreate.email usuario)) as H2.
  destruct (first _) eqn:E2; [contradiction|].
  rewrite Hid. unfold update_usuario.
  apply existsb_false_first in E2. now rewrite E2.
Qed.

Lemma atualizar_endereco_como_map (db : BD) (k : Z) (endereco : EnderecoBase.t) :
  endereco_existe k db ->
  atualizar_endereco k endereco db =
  refresh_endereco k
    (mkBD (usuarios db)
          (map (set_endereco k (EnderecoBase.rua endereco) (EnderecoBase.cidade endereco)
                  (EnderecoBase.cep endereco)) (enderecos db))
          (seq_usuarios db) (seq_enderecos db)).
Proof.
  intros Hyes. unfold atualizar_endereco, bind, query_endereco_first.
  pose proof (endereco_por_id db k) as H.
  destruct (first _) as [e|]; [|contradiction]. destruct H as [_ Hid].
  now rewrite Hid.
Qed.

Lemma email_de_outro_ou_nao (db : BD) (k : Z) (email : string) :
  email_de_outro email k db \/ ~ email_de_outro email k db.
Proof.
  pose proof (email_de_outro_first db k email) as H.
  destruct (first _); auto.
Qed.

Lemma endereco_existe_ou_nao (db : BD) (k : Z) :
  endereco_existe k db \/ ~ endereco_existe k db.
Proof.
  pose proof (endereco_por_id db k) as H.
  destruct (first _) as [e|]; [left; now exists e | right; exact H].
Qed.

(** A PUT /usuarios/{id} that succeeded went past both checks. *)
Lemma PUT_usuario_ok (db : BD) (k : Z) (usuario : UsuarioCreate.t) s c db' :
  PUT_usuario k usuario db = (Ok s c, db') ->
  usuario_existe k db /\ ~ email_de_outro (UsuarioCreate.email usuario) k db /\
  refresh_usuario k db' = (inr c, db') /\ s = 200 /\
  db' = mkBD (map (set_usuario k (UsuarioCreate.nome usuario) (UsuarioCreate.email usuario))
                 (usuarios db))
             (enderecos db) (seq_usuarios db) (seq_enderecos db).
Proof.
  unfold PUT_usuario, rota.
  destruct (usuario_existe_ou_nao db k) as [Hyes|Hno];
    [|rewrite (atualizar_usuario_ausente db k usuario Hno); discriminate].
  destruct (email_de_outro_ou_nao db k (UsuarioCreate.email usuario)) as [Hdup|Hnew];
    [rewrite (atualizar_usuario_duplicado db k usuario Hyes Hdup); discriminate|].
  rewrite (atualizar_usuario_como_map db k usuario Hyes Hnew).
  unfold refresh_usuario at 1. cbn [usuarios].
  destruct (first _) as [u|] eqn:E; [|discriminate].
  intros [= <- <- <-]. repeat split; auto.
  unfold refresh_usuario. cbn [usuarios]. now rewrite E.
Qed.

Lemma PUT_endereco_ok (db : BD) (k : Z) (endereco : EnderecoBase.t) s c db' :
  PUT_endereco k endereco db = (Ok s c, db') ->
  endereco_existe k db /\ refresh_endereco k db' = (inr c, db') /\ s = 200 /\
  db' = mkBD (usuarios db)
             (map (set_endereco k (EnderecoBase.rua endereco) (EnderecoBase.cidade endereco)
                     (EnderecoBase.cep endereco)) (enderecos db))
             (seq_usuarios db) (seq_enderecos db).
Proof.
  unfold PUT_endereco, rota.
  destruct (endereco_existe_ou_nao db k) as [Hyes|Hno];
    [|rewrite (atualizar_endereco_ausente db k endereco Hno); discriminate].
  rewrite (atualizar_endereco_como_map db k endereco Hyes).
  unfold refresh_endereco at 1. cbn [enderecos].
  destruct (first _) as [e|] eqn:E; [|discriminate].
  intros [= <- <- <-]. repeat split; auto.
  unfold refresh_endereco. cbn [enderecos]. now rewrite E.
Qed.

(** X5. PUT /usuarios/{id} is idempotent.  In every store: when the request
    succeeds, the same request served again on the store it left gets the
    same answer and leaves that store as it is. *)
Theorem atualizar_usuario_idempotente
    (db : BD) (usuario_id : Z) (usuario : UsuarioCreate.t)
    (status_code : Z) (corpo : Usuario.t) (db' : BD) :
  PUT_usuario usuario_id usuario db = (Ok status_code corpo, db') ->
  PUT_usuario usuario_id usuario db' = (Ok status_code corpo, db').
Proof.
  intros H. destruct (PUT_usuario_ok _ _ _ _ _ _ H) as (Hyes & Hnew & Href & -> & Hdb).
  assert (Hyes' : usuario_existe usuario_id db').
  { destruct Hyes as (u & Hu & Hid). rewrite Hdb. eexists. split.
    - cbn. apply in_map, Hu.
    - now rewrite set_usuario_id. }
  assert (Hnew' : ~ email_de_outro (UsuarioCreate.email usuario) usuario_id db').
  { intros (x & Hx & He & Hne). apply Hnew. rewrite Hdb in Hx. cbn in Hx.
    apply in_map_iff in Hx as (y & <- & Hy). rewrite set_usuario_id in Hne.
    unfold set_usuario in He. rewrite (proj2 (Z.eqb_neq _ _) Hne) in He.
    now exists y. }
  unfold PUT_usuario, rota.
  rewrite (atualizar_usuario_como_map db' usuario_id usuario Hyes' Hnew').
  assert (Hfix : mkBD (map (set_usuario usuario_id (UsuarioCreate.nome usuario)
                              (UsuarioCreate.email usuario)) (usuarios db'))
                   (enderecos db') (seq_usuarios db') (seq_enderecos db') = db').
  { rewrite Hdb at 5. rewrite Hdb. cbn. f_equal.
    rewrite map_map. apply map_ext. intros u. apply set_usuario_set_usuario. }
  rewrite Hfix, Href. reflexivity.
Qed.

Lemma atualizar_usuario_idempotente_witness :
  let ana := UsuarioCreate.mk "Ana" "ana@example.com" in
  let nova := UsuarioCreate.mk "Ana Maria" "ana.maria@example.com" in
  let db := executar [PostUsuarios 10 ana] bd_vazio in
  let db' := mkBD [Usuario.mk 1 "Ana Maria" "ana.maria@example.com" 10] [] 2 1 in
  PUT_usuario 1 nova db' =
  (Ok 200 (Usuario.mk 1 "Ana Maria" "ana.maria@example.com" 10), db').
Proof.
  intros ana nova db db'.
  exact (atualizar_usuario_idempotente db 1 nova 200
           (Usuario.mk 1 "Ana Maria" "ana.maria@example.com" 10) db' eq_refl).
Defined.

(** X6. PUT /enderecos/{id} is idempotent, in every store, in the same
    sense. *)
Theorem atualizar_endereco_idempotente
    (db : BD) (endereco_id : Z) (endereco : EnderecoBase.t)
    (status_code : Z) (corpo : Endereco.t) (db' : BD) :
  PUT_endereco endereco_id endereco db = (Ok status_code corpo, db') ->
  PUT_endereco endereco_id endereco db' = (Ok status_code corpo, db').
Proof.
  intros H. destruct (PUT_endereco_ok _ _ _ _ _ _ H) as (Hyes & Href & -> & Hdb).
  assert (Hyes' : endereco_existe endereco_id db').
  { destruct Hyes as (e & He & Hid). rewrite Hdb. eexists. split.
    - cbn. apply in_map, He.
    - now rewrite set_endereco_id. }
  unfold PUT_endereco, rota.
  rewrite (atualizar_endereco_como_map db' endereco_id endereco Hyes').
  assert (Hfix : mkBD (usuarios db')
                   (map (set_endereco endereco_id (EnderecoBase.rua endereco)
                           (EnderecoBase.cidade endereco) (EnderecoBase.cep endereco))
                      (enderecos db'))
                   (seq_usuarios db') (seq_enderecos db') = db').
  { rewrite Hdb at 5. rewrite Hdb. cbn. f_equal.
    rewrite map_map. apply map_ext. intros e. apply set_endereco_set_endereco. }
  rewrite Hfix, Href. reflexivity.
Qed.

Lemma atualizar_endereco_idempotente_witness :
  let ana := UsuarioCreate.mk "Ana" "ana@example.com" in
  let casa := EnderecoBase.mk "Rua A, 1" "Recife" (Some "50000-000") in
  let nova := EnderecoBase.mk "Rua B, 2" "Olinda" None in
  let db := executar [PostUsuarios 10 ana; PostEnderecos 11 1 casa] bd_vazio in
  let db' := mkBD (usuarios db) [Endereco.mk 1 "Rua B, 2" "Olinda" None 1 11] 2 2 in
  PUT_endereco 1 nova db' = (Ok 200 (Endereco.mk 1 "Rua B, 2" "Olinda" None 1 11), db').
Proof.
  intros ana casa nova db db'.
  exact (atualizar_endereco_idempotente db 1 nova 200
           (Endereco.mk 1 "Rua B, 2" "Olinda" None 1 11) db' eq_refl).
Defined.

(** ** One request after another *)

Lemma coluna_unica {A B : Type} (coluna : A -> B) (linhas : list A) (x y : A)
    (Hnd : NoDup (map coluna linhas)) (Hx : In x linhas) (Hy : In y linhas) :
  coluna x = coluna y -> x = y.
Proof.
  intros Heq. induction linhas as [|a l IH]; [contradiction|].
  cbn in Hnd. apply NoDup_cons_iff in Hnd as [Hnin Hnd].
  destruct Hx as [<-|Hx], Hy as [<-|Hy]; auto.
  - exfalso. apply Hnin. rewrite Heq. now apply in_map.
  - exfalso. apply Hnin. rewrite <- Heq. now apply in_map.
Qed.

(** X7. PUT /usuarios/{id} with the email the user already has.  In a store
    the schema allows, a stored user can always be renamed under its own
    email: the email check leaves the user's own row out, so the request
    answers 200 with the row renamed, and never 400. *)
Theorem atualizar_usuario_mantendo_email (db : BD) (u : Usuario.t) (nome : string) :
  bd_ok db -> In u (usuarios db) ->
  PUT_usuario (Usuario.id u) (UsuarioCreate.mk nome (Usuario.email u)) db =
  (Ok 200 (Usuario.mk (Usuario.id u) nome (Usuario.email u) (Usuario.criado_em u)),
   mkBD (map (set_usuario (Usuario.id u) nome (Usuario.email u)) (usuarios db))
        (enderecos db) (seq_usuarios db) (seq_enderecos db)).
Proof.
  intros Hok Hin.
  assert (Hyes : usuario_existe (Usuario.id u) db) by now exists u.
  assert (Hnew : ~ email_de_outro (Usuario.email u) (Usuario.id u) db).
  { intros (x & Hx & He & Hne). apply Hne. f_equal.
    exact (coluna_unica Usuario.email _ x u (uq_email db Hok) Hx Hin He). }
  unfold PUT_usuario, rota.
  rewrite (atualizar_usuario_como_map db (Usuario.id u)
             (UsuarioCreate.mk nome (Usuario.email u)) Hyes Hnew).
  cbn [UsuarioCreate.nome UsuarioCreate.email].
  unfold refresh_usuario. cbn [usuarios].
  destruct (in_split_chave Usuario.id _ _ (pk_usuarios db Hok) Hin) as (l1 & l2 & Heq & Hne).
  rewrite Heq at 1.
  rewrite (map_set_usuario_split (Usuario.id u) nome (Usuario.email u) l1 u l2 eq_refl Hne).
  rewrite (filter_chave Usuario.id l1 l2 _ (Usuario.id u)); [reflexivity|reflexivity|exact Hne].
Qed.

Lemma atualizar_usuario_mantendo_email_witness :
  let ana := UsuarioCreate.mk "Ana" "ana@example.com" in
  let bia := UsuarioCreate.mk "Bia" "bia@example.com" in
  let db := executar [PostUsuarios 10 ana; PostUsuarios 11 bia] bd_vazio in
  fst (PUT_usuario 2 (UsuarioCreate.mk "Beatriz" "bia@example.com") db) =
  Ok 200 (Usuario.mk 2 "Beatriz" "bia@example.com" 11).
Proof.
  intros ana bia db.
  assert (Hok : bd_ok db) by apply bd_ok_executar, bd_ok_vazio.
  assert (Hin : In (Usuario.mk 2 "Bia" "bia@example.com" 11) (usuarios db))
    by (right; left; reflexivity).
  exact (f_equal fst (atualizar_usuario_mantendo_email db _ "Beatriz" Hok Hin)).
Defined.

Lemma DELETE_usuario_remove (db : BD) (k : Z) :
  ~ usuario_existe k (snd (DELETE_usuario k db)).
Proof.
  unfold DELETE_usuario, rota.
  destruct (usuario_existe_ou_nao db k) as [Hyes|Hno].
  - rewrite (deletar_usuario_presente db k Hyes). cbn.
    intros (u & Hu & Hid). cbn in Hu. apply filter_In in Hu as [_ Hne].
    apply negb_true_iff, Z.eqb_neq in Hne. contradiction.
  - rewrite (deletar_usuario_ausente db k Hno). exact Hno.
Qed.

(** X8. After DELETE /usuarios/{id}.  In every store, and whatever the
    DELETE was answered: on the store it leaves, every route addressed to
    that user id answers 404 "Usuário não encontrado" and changes nothing:
    GET, PUT and DELETE /usuarios/{id}, and POST and GET
    /usuarios/{id}/enderecos. *)
Theorem depois_de_deletar_usuario (db : BD) (usuario_id : Z) :
  let db' := snd (DELETE_usuario usuario_id db) in
  let nao_encontrado {A} : Resposta A * BD := (Erro 404 "Usuário não encontrado", db') in
  GET_usuario usuario_id db' = nao_encontrado /\
  (forall usuario, PUT_usuario usuario_id usuario db' = nao_encontrado) /\
  DELETE_usuario usuario_id db' = nao_encontrado /\
  (forall agora endereco, POST_enderecos agora usuario_id endereco db' = nao_encontrado) /\
  GET_enderecos usuario_id db' = nao_encontrado.
Proof.
  intros db' nao_encontrado. unfold nao_encontrado.
  pose proof (DELETE_usuario_remove db usuario_id) as Hno. fold db' in Hno.
  unfold GET_usuario, PUT_usuario, DELETE_usuario, POST_enderecos, GET_enderecos, rota.
  rewrite (obter_usuario_ausente db' usuario_id Hno).
  rewrite (deletar_usuario_ausente db' usuario_id Hno).
  rewrite (obter_enderecos_usuario_ausente db' usuario_id Hno).
  repeat split.
  - intros usuario. now rewrite (atualizar_usuario_ausente db' usuario_id usuario Hno).
  - intros agora endereco.
    now rewrite (criar_endereco_ausente db' agora usuario_id endereco Hno).
Qed.

(** X9. After POST /usuarios.  In a store the schema allows, when the
    request succeeds with a user: GET /usuarios/{id} of its id answers 200
    with that very record and no address, GET /usuarios/{id}/enderecos
    answers 200 with the empty list, and a further POST /usuarios with the
    same email, under any name, answers 400 "Email já cadastrado". *)
Theorem criar_usuario_depois_obter
    (db : BD) (agora : Z) (usuario : UsuarioCreate.t)
    (status_code : Z) (novo : Usuario.t) (db' : BD) :
  bd_ok db ->
  POST_usuarios agora usuario db = (Ok status_code novo, db') ->
  GET_usuario (Usuario.id novo) db' = (Ok 200 (UsuarioComEnderecos.mk novo []), db') /\
  GET_enderecos (Usuario.id novo) db' = (Ok 200 [], db') /\
  (forall agora' nome',
     POST_usuarios agora' (UsuarioCreate.mk nome' (UsuarioCreate.email usuario)) db' =
     (Erro 400 "Email já cadastrado", db')).
Proof.
  intros Hok.
  destruct (POST_usuarios_casos db agora usuario (seq_usuarios_acima db Hok))
    as [[_ ->]|[_ ->]]; [discriminate|].
  intros [= _ <- <-]. cbn [Usuario.id].
  set (novo := Usuario.mk _ _ _ _).
  set (db' := mkBD _ _ _ _).
  assert (Hprimeiro : first (filter (fun u => Usuario.id u =? seq_usuarios db) (usuarios db'))
                      = Some novo).
  { cbn [db' usuarios]. rewrite filter_app, filter_nenhum.
    - cbn. now rewrite Z.eqb_refl.
    - intros x Hx. apply Z.eqb_neq. pose proof (seq_usuarios_acima db Hok x Hx). lia. }
  assert (Hsem : enderecos_de (seq_usuarios db) db' = []).
  { unfold enderecos_de. cbn [db' enderecos]. apply filter_nenhum.
    intros e He. apply Z.eqb_neq.
    destruct (fk_enderecos db Hok e He) as (u & Hu & <-).
    pose proof (seq_usuarios_acima db Hok u Hu). lia. }
  split; [|split].
  - unfold GET_usuario, rota, obter_usuario, bind, query_usuario_first.
    rewrite Hprimeiro. unfold relationship_enderecos, ret. cbn [Usuario.id novo].
    now rewrite Hsem.
  - unfold GET_enderecos, rota, obter_enderecos_usuario, bind, query_usuario_first.
    rewrite Hprimeiro. unfold relationship_enderecos. cbn [Usuario.id novo].
    now rewrite Hsem.
  - intros agora' nome'. unfold POST_usuarios, rota.
    rewrite criar_usuario_duplicado; [reflexivity|].
    exists novo. split; [|reflexivity].
    cbn [db' usuarios]. apply in_or_app. right. now left.
Qed.

Lemma criar_usuario_depois_obter_witness :
  let ana := UsuarioCreate.mk "Ana" "ana@example.com" in
  let novo := Usuario.mk 1 "Ana" "ana@example.com" 10 in
  let db' := mkBD [novo] [] 2 1 in
  GET_usuario 1 db' = (Ok 200 (UsuarioComEnderecos.mk novo []), db') /\
  POST_usuarios 11 (UsuarioCreate.mk "Outra Ana" "ana@example.com") db' =
  (Erro 400 "Email já cadastrado", db').
Proof.
  intros ana novo db'.
  destruct (criar_usuario_depois_obter bd_vazio 10 ana 201 novo db') as (Hget & _ & Hdup).
  - constructor; cbn; try constructor; intros ? [].
  - reflexivity.
  - split; [exact Hget | exact (Hdup 11 "Outra Ana")].
Defined.

Lemma usuario_existe_mesmos_usuarios (db db' : BD) (k : Z) :
  usuarios db' = usuarios db -> usuario_existe k db' <-> usuario_existe k db.
Proof. intros H. unfold usuario_existe. now rewrite H. Qed.

Lemma GET_enderecos_fst (db : BD) (k : Z) :
  fst (GET_enderecos k db) =
  match first (filter (fun u => Usuario.id u =? k) (usuarios db)) with
  | Some _ => Ok 200 (enderecos_de k db)
  | None => Erro 404 "Usuário não encontrado"
  end.
Proof.
  unfold GET_enderecos, rota, obter_enderecos_usuario, bind, query_usuario_first.
  pose proof (usuario_por_id db k) as H.
  destruct (first _) as [u|]; [|reflexivity].
  unfold relationship_enderecos. destruct H as [_ ->]. reflexivity.
Qed.

(** X10. After POST /usuarios/{id}/enderecos.  In a store the schema
    allows, when the request succeeds with an address: GET
    /usuarios/{id}/enderecos of that id answers 200 with the list it had
    before and the new address at its end, and for every other user id it
    answers as it did before. *)
Theorem criar_endereco_depois_listar
    (db : BD) (agora usuario_id : Z) (endereco : EnderecoBase.t)
    (status_code : Z) (novo : Endereco.t) (db' : BD) :
  bd_ok db ->
  POST_enderecos agora usuario_id endereco db = (Ok status_code novo, db') ->
  GET_enderecos usuario_id db' =
  (Ok 200 (filter (fun e => Endereco.usuario_id e =? usuario_id) (enderecos db) ++ [novo]),
   db') /\
  (forall outro, outro <> usuario_id ->
     fst (GET_enderecos outro db') = fst (GET_enderecos outro db)).
Proof.
  intros Hok. unfold POST_enderecos, rota.
  destruct (usuario_existe_ou_nao db usuario_id) as [Hyes|Hno];
    [|rewrite (criar_endereco_ausente db agora usuario_id endereco Hno); discriminate].
  rewrite (criar_endereco_novo db agora usuario_id endereco (seq_enderecos_acima db Hok) Hyes).
  intros [= _ <- <-]. split.
  - unfold GET_enderecos, rota.
    rewrite obter_enderecos_usuario_presente by exact Hyes.
    unfold enderecos_de. cbn [enderecos]. rewrite filter_app. cbn.
    now rewrite Z.eqb_refl.
  - intros outro Hne. rewrite !GET_enderecos_fst. cbn [usuarios].
    destruct (first _); [|reflexivity].
    unfold enderecos_de. cbn [enderecos]. rewrite filter_app. cbn.
    rewrite (proj2 (Z.eqb_neq usuario_id outro)) by congruence.
    now rewrite app_nil_r.
Qed.

Lemma criar_endereco_depois_listar_witness :
  let ana := UsuarioCreate.mk "Ana" "ana@example.com" in
  let casa := EnderecoBase.mk "Rua A, 1" "Recife" None in
  let praia := EnderecoBase.mk "Av. Beira Mar, 9" "Olinda" None in
  let db := executar [PostUsuarios 10 ana; PostEnderecos 11 1 casa] bd_vazio in
  let e1 := Endereco.mk 1 "Rua A, 1" "Recife" None 1 11 in
  let e2 := Endereco.mk 2 "Av. Beira Mar, 9" "Olinda" None 1 12 in
  fst (GET_enderecos 1 (mkBD (usuarios db) [e1; e2] 2 3)) = Ok 200 [e1; e2].
Proof.
  intros ana casa praia db e1 e2.
  assert (Hok : bd_ok db) by apply bd_ok_executar, bd_ok_vazio.
  destruct (criar_endereco_depois_listar db 12 1 praia 201 e2
              (mkBD (usuarios db) [e1; e2] 2 3) Hok eq_refl) as [H _].
  rewrite H. reflexivity.
Defined.

(** X11. After PUT /usuarios/{id}.  In every store, when the request
    succeeds with a record: that record has the id of the path and the name
    and email of the body, and GET /usuarios/{id} on the store left answers
    200 with that very record and the addresses the user had before. *)
Theorem atualizar_usuario_depois_obter
    (db : BD) (usuario_id : Z) (usuario : UsuarioCreate.t)
    (status_code : Z) (corpo : Usuario.t) (db' : BD) :
  PUT_usuario usuario_id usuario db = (Ok status_code corpo, db') ->
  Usuario.id corpo = usuario_id /\
  Usuario.nome corpo = UsuarioCreate.nome usuario /\
  Usuario.email corpo = UsuarioCreate.email usuario /\
  GET_usuario usuario_id db' =
  (Ok 200 (UsuarioComEnderecos.mk corpo
             (filter (fun e => Endereco.usuario_id e =? usuario_id) (enderecos db))),
   db').
Proof.
  intros H. destruct (PUT_usuario_ok _ _ _ _ _ _ H) as (_ & _ & Href & _ & Hdb).
  unfold refresh_usuario in Href.
  destruct (first _) as [c|] eqn:E; [|discriminate]. injection Href as ->.
  pose proof E as E'. apply first_filter_Some in E' as [Hin Hid]. apply Z.eqb_eq in Hid.
  assert (Hcampos : Usuario.nome corpo = UsuarioCreate.nome usuario /\
                    Usuario.email corpo = UsuarioCreate.email usuario).
  { rewrite Hdb in Hin. cbn in Hin. apply in_map_iff in Hin as (y & Hset & _).
    rewrite <- Hset in Hid |- *. rewrite set_usuario_id in Hid.
    unfold set_usuario. rewrite (proj2 (Z.eqb_eq _ _) Hid). cbn. auto. }
  destruct Hcampos as [Hn He]. repeat (split; [assumption|]).
  unfold GET_usuario, rota, obter_usuario, bind, query_usuario_first.
  rewrite E. unfold relationship_enderecos, ret, enderecos_de.
  rewrite Hid. rewrite Hdb at 1. reflexivity.
Qed.

Lemma atualizar_usuario_depois_obter_witness :
  let ana := UsuarioCreate.mk "Ana" "ana@example.com" in
  let casa := EnderecoBase.mk "Rua A, 1" "Recife" None in
  let db := executar [PostUsuarios 10 ana; PostEnderecos 11 1 casa] bd_vazio in
  let nova := Usuario.mk 1 "Ana Maria" "am@example.com" 10 in
  let db' := mkBD [nova] (enderecos db) 2 2 in
  GET_usuario 1 db' = (Ok 200 (UsuarioComEnderecos.mk nova (enderecos db)), db').
Proof.
  intros ana casa db nova db'.
  exact (proj2 (proj2 (proj2
    (atualizar_usuario_depois_obter db 1 (UsuarioCreate.mk "Ana Maria" "am@example.com")
       200 nova db' eq_refl)))).
Defined.

(** ** What each route leaves alone *)

Ltac abrir_rota :=
  unfold POST_usuarios, GET_usuarios, GET_usuario, PUT_usuario, DELETE_usuario,
    POST_enderecos, GET_enderecos, PUT_endereco, DELETE_endereco, rota,
    criar_usuario, listar_usuarios, obter_usuario, atualizar_usuario, deletar_usuario,
    criar_endereco, obter_enderecos_usuario, atualizar_endereco, deletar_endereco,
    bind, ret, raise, query_usuario_first, query_endereco_first, query_usuarios_all,
    relationship_enderecos, insert_usuario, update_usuario, delete_usuario,
    refresh_usuario, insert_endereco, update_endereco, delete_endereco, refresh_endereco;
  cbv beta;
  repeat (match goal with
          | |- context [match ?x with _ => _ end] =>
              lazymatch x with
              | context [match _ with _ => _ end] => fail
              | _ => destruct x
              end
          end; cbv beta iota; cbn [fst snd usuarios enderecos seq_usuarios seq_enderecos]).

(** X12. What each route leaves alone, in every store and whatever its
    answer: the four GET change nothing; the routes of addresses (POST, PUT,
    DELETE) never touch the table of users nor its counter; POST and PUT of
    users never touch the table of addresses nor its counter.  DELETE
    /usuarios/{id} alone writes to both tables. *)
Theorem o_que_cada_rota_preserva (r : Requisicao) (db : BD) :
  match r with
  | GetUsuarios _ _ | GetUsuario _ | GetEnderecos _ | GetRaiz => atender r db = db
  | PostEnderecos _ _ _ | PutEndereco _ _ | DeleteEndereco _ =>
      usuarios (atender r db) = usuarios db /\
      seq_usuarios (atender r db) = seq_usuarios db
  | PostUsuarios _ _ | PutUsuario _ _ =>
      enderecos (atender r db) = enderecos db /\
      seq_enderecos (atender r db) = seq_enderecos db
  | DeleteUsuario _ =>
      seq_usuarios (atender r db) = seq_usuarios db /\
      seq_enderecos (atender r db) = seq_enderecos db
  end.
Proof.
  destruct r; cbn [atender]; try reflexivity; abrir_rota; auto.
Qed.

Lemma filter_troca {A : Type} (p q : A -> bool) (linhas : list A) :
  filter p (filter q linhas) = filter q (filter p linhas).
Proof.
  induction linhas as [|a l IH]; [reflexivity|]. cbn.
  destruct (p a) eqn:Ep, (q a) eqn:Eq; cbn; rewrite ?Ep, ?Eq, IH; reflexivity.
Qed.

Lemma DELETE_endereco_remove (db : BD) (k : Z) :
  ~ endereco_existe k (snd (DELETE_endereco k db)) /\
  enderecos (snd (DELETE_endereco k db)) =
  filter (fun e => negb (Endereco.id e =? k)) (enderecos db) /\
  usuarios (snd (DELETE_endereco k db)) = usuarios db.
Proof.
  unfold DELETE_endereco, rota, deletar_endereco, bind, query_endereco_first.
  pose proof (endereco_por_id db k) as H.
  destruct (first _) as [e|]; cbn.
  - destruct H as [_ ->]. repeat split.
    intros (x & Hx & Hid). cbn in Hx. apply filter_In in Hx as [_ Hne].
    apply negb_true_iff, Z.eqb_neq in Hne. contradiction.
  - repeat split; [exact H|].
    symmetry. apply filter_todos. intros x Hx. apply negb_true_iff, Z.eqb_neq.
    intros Hid. apply H. now exists x.
Qed.

(** X13. After DELETE /enderecos/{id}.  In every store, and whatever the
    DELETE was answered: on the store it leaves, PUT and DELETE
    /enderecos/{id} of that id answer 404 "Endereço não encontrado" and
    change nothing, and every user's GET /usuarios/{id}/enderecos answers
    as before, the list without the address of that id. *)
Theorem depois_de_deletar_endereco (db : BD) (endereco_id : Z) :
  let db' := snd (DELETE_endereco endereco_id db) in
  (forall endereco,
     PUT_endereco endereco_id endereco db' = (Erro 404 "Endereço não encontrado", db')) /\
  DELETE_endereco endereco_id db' = (Erro 404 "Endereço não encontrado", db') /\
  (forall usuario_id,
     fst (GET_enderecos usuario_id db') =
     match fst (GET_enderecos usuario_id db) with
     | Ok s es => Ok s (filter (fun e => negb (Endereco.id e =? endereco_id)) es)
     | Erro s d => Erro s d
     end).
Proof.
  intros db'. destruct (DELETE_endereco_remove db endereco_id) as (Hno & Hes & Hus).
  fold db' in Hno, Hes, Hus. split; [|split].
  - intros endereco. unfold PUT_endereco, rota.
    now rewrite (atualizar_endereco_ausente db' endereco_id endereco Hno).
  - unfold DELETE_endereco at 1, rota.
    now rewrite (deletar_endereco_ausente db' endereco_id Hno).
  - intros usuario_id. rewrite !GET_enderecos_fst, Hus.
    destruct (first _); [|reflexivity].
    unfold enderecos_de. rewrite Hes. f_equal. apply filter_troca.
Qed.

(** ** Paging through the users *)

Lemma firstn_soma {A : Type} (a b : nat) (linhas : list A) :
  firstn (a + b) linhas = firstn a linhas ++ firstn b (skipn a linhas).
Proof.
  revert linhas. induction a as [|a IH]; intros [|x l]; cbn; try reflexivity.
  - now rewrite firstn_nil.
  - now rewrite IH.
Qed.

Lemma itens_GET_usuarios (db : BD) (skip limit : Z) :
  0 <= skip <= MAX_BIGINT -> 0 <= limit <= MAX_BIGINT ->
  itens (fst (GET_usuarios skip limit db)) =
  firstn (Z.to_nat limit) (skipn (Z.to_nat skip) (usuarios db)).
Proof.
  intros Hs Hl. destruct (GET_usuarios_casos skip limit db) as [[Hneg _]|[_ ->]];
    [lia|reflexivity].
Qed.

Lemma paginas_firstn (n : Z) (k : nat) (db : BD) :
  0 <= n <= MAX_BIGINT -> Z.of_nat k * n <= MAX_BIGINT ->
  paginas n k db = firstn (k * Z.to_nat n) (usuarios db).
Proof.
  intros Hn. unfold paginas. induction k as [|k IH]; intros Hk; [reflexivity|].
  assert (Hk' : 0 <= Z.of_nat k * n <= MAX_BIGINT) by nia.
  rewrite seq_S, map_app, concat_app, IH by lia. cbn [map List.concat Nat.add].
  rewrite app_nil_r, itens_GET_usuarios by lia.
  replace (Z.to_nat (Z.of_nat k * n)) with (k * Z.to_nat n)%nat
    by (rewrite Z2Nat.inj_mul, Nat2Z.id by lia; reflexivity).
  replace (S k * Z.to_nat n)%nat with (k * Z.to_nat n + Z.to_nat n)%nat by lia.
  now rewrite firstn_soma.
Qed.

(** X14. Paging through GET /usuarios.  In every store, for a page size
    [n] from 1 up to [MAX_BIGINT] and as long as the offsets asked stay at
    or below [MAX_BIGINT]: the first [k] pages, asked with skip = 0, n, 2n,
    ... and limit = n and put end to end, are the first k*n users of the
    table, in order; so once k*n reaches the number of users they are the
    whole table, each user once, and every page asked further on is
    empty. *)
Theorem paginas_cobrem (db : BD) (n : Z) (k : nat) :
  0 < n <= MAX_BIGINT -> Z.of_nat k * n <= MAX_BIGINT ->
  paginas n k db = firstn (k * Z.to_nat n) (usuarios db) /\
  (Z.of_nat (List.length (usuarios db)) <= Z.of_nat k * n ->
   paginas n k db = usuarios db /\
   forall j, (k <= j)%nat -> Z.of_nat j * n <= MAX_BIGINT ->
     GET_usuarios (Z.of_nat j * n) n db = (Ok 200 [], db)).
Proof.
  intros Hn Hmax. split; [apply paginas_firstn; lia|].
  intros Hk. split.
  - rewrite paginas_firstn by lia. apply firstn_all2. nia.
  - intros j Hj Hjmax.
    destruct (GET_usuarios_casos (Z.of_nat j * n) n db) as [[Hneg _]|[_ ->]]; [nia|].
    rewrite skipn_all2; [now rewrite firstn_nil|].
    rewrite Z2Nat.inj_mul, Nat2Z.id by lia. nia.
Qed.

Lemma paginas_cobrem_witness :
  let u n := UsuarioCreate.mk n (n ++ "@example.com")%string in
  let db := executar [PostUsuarios 1 (u "a"); PostUsuarios 2 (u "b");
                      PostUsuarios 3 (u "c")] bd_vazio in
  paginas 2 2 db = usuarios db /\ GET_usuarios 4 2 db = (Ok 200 [], db).
Proof.
  intros u db.
  destruct (paginas_cobrem db 2 2) as [_ H]; [unfold MAX_BIGINT; lia..|].
  destruct H as [Hall Hvazio]; [cbn; lia|].
  split; [exact Hall|].
  apply (Hvazio 2%nat (le_n 2)). unfold MAX_BIGINT. lia.
Defined.



(** ** Bodies and columns *)

Lemma campo_str_limites (min_length max_length : nat) (v : option JSON) (s : string) :
  campo_str min_length max_length v = Some s ->
  v = Some (JStr s) /\ (min_length <= caracteres s <= max_length)%nat.
Proof.
  unfold campo_str, comprimento_ok. destruct v as [[]|]; try discriminate.
  destruct (andb _ _) eqn:E; [|discriminate]. intros [= <-].
  apply andb_true_iff in E as [E1 E2]. apply Nat.leb_le in E1, E2. auto.
Qed.

Lemma campo_str_opcional_limites (max_length : nat) (v : option JSON) (o : option string) :
  campo_str_opcional max_length v = Some o ->
  match o with
  | Some s => v = Some (JStr s) /\ (caracteres s <= max_length)%nat
  | None => v = None \/ v = Some JNull
  end.
Proof.
  unfold campo_str_opcional, comprimento_ok. destruct v as [[]|]; try discriminate.
  - intros [= <-]. auto.
  - destruct (andb _ _) eqn:E; [|discriminate]. intros [= <-].
    apply andb_true_iff in E as [_ E2]. apply Nat.leb_le in E2. auto.
  - intros [= <-]. auto.
Qed.

Lemma validar_EnderecoBase_limites (campos : list (string * JSON)) (endereco : EnderecoBase.t) :
  validar_EnderecoBase campos = Some endereco ->
  dict_get "rua" campos = Some (JStr (EnderecoBase.rua endereco)) /\
  dict_get "cidade" campos = Some (JStr (EnderecoBase.cidade endereco)) /\
  (1 <= caracteres (EnderecoBase.rua endereco) <= 255)%nat /\
  (1 <= caracteres (EnderecoBase.cidade endereco) <= 100)%nat /\
  match EnderecoBase.cep endereco with
  | Some cep => dict_get "cep" campos = Some (JStr cep) /\ (caracteres cep <= 10)%nat
  | None => dict_get "cep" campos = None \/ dict_get "cep" campos = Some JNull
  end.
Proof.
  unfold validar_EnderecoBase.
  destruct (campo_str 1 255 _) as [rua|] eqn:Er; [|discriminate].
  destruct (campo_str 1 100 _) as [cidade|] eqn:Ec; [|discriminate].
  destruct (campo_str_opcional 10 _) as [cep|] eqn:Ep; [|discriminate].
  intros [= <-]. cbn.
  apply campo_str_limites in Er as [-> Hr], Ec as [-> Hc].
  apply campo_str_opcional_limites in Ep. auto.
Qed.

Lemma cabe_novo (endereco : EnderecoBase.t) (campos : list (string * JSON)) (i k t : Z) :
  validar_EnderecoBase campos = Some endereco ->
  cabe_nas_colunas
    (Endereco.mk i (EnderecoBase.rua endereco) (EnderecoBase.cidade endereco)
       (EnderecoBase.cep endereco) k t).
Proof.
  intros H. apply validar_EnderecoBase_limites in H as (_ & _ & Hr & Hc & Hp).
  unfold cabe_nas_colunas. cbn. repeat split; try tauto.
  destruct (EnderecoBase.cep endereco); tauto.
Qed.

(** X16. Bodies and columns.  Lengths are counted in characters (code
    points), as Pydantic and the VARCHAR columns count them, not in bytes.
    In a store the schema allows and whose addresses all fit their columns
    ([rua] 1 to 255 characters, [cidade] 1 to 100, [cep] null or at most
    10): after POST /usuarios/{id}/enderecos
    or PUT /enderecos/{id} with any JSON body, answered as it may be, all
    stored addresses still fit; and the address a successful request answers
    with fits and carries the body's "rua" and "cidade". *)
Theorem enderecos_cabem_nas_colunas (db : BD) (agora k : Z) (corpo : JSON) :
  bd_ok db ->
  (forall e, In e (enderecos db) -> cabe_nas_colunas e) ->
  (forall e, In e (enderecos (snd (POST_enderecos_json agora k corpo db))) ->
     cabe_nas_colunas e) /\
  (forall e, In e (enderecos (snd (PUT_endereco_json k corpo db))) ->
     cabe_nas_colunas e) /\
  (forall status_code novo db',
     POST_enderecos_json agora k corpo db = (Ok status_code novo, db') \/
     PUT_endereco_json k corpo db = (Ok status_code novo, db') ->
     cabe_nas_colunas novo /\
     exists campos, corpo = JObj campos /\
       dict_get "rua" campos = Some (JStr (Endereco.rua novo)) /\
       dict_get "cidade" campos = Some (JStr (Endereco.cidade novo))).
Proof.
  intros Hok Hdb.
  assert (Hpost : forall e, In e (enderecos (snd (POST_enderecos_json agora k corpo db))) ->
                            cabe_nas_colunas e).
  { unfold POST_enderecos_json. destruct corpo as [| | | | |campos]; try exact Hdb.
    destruct (validar_EnderecoBase campos) as [endereco|] eqn:Hv; [|exact Hdb].
    unfold POST_enderecos, rota, criar_endereco, bind, query_usuario_first.
    destruct (first _); [|exact Hdb].
    unfold insert_endereco. destruct (existsb _ _); [|exact Hdb].
    unfold refresh_endereco. cbn [enderecos].
    assert (Hnovo : forall e,
              In e (enderecos db ++
                    [Endereco.mk (seq_enderecos db) (EnderecoBase.rua endereco)
                       (EnderecoBase.cidade endereco) (EnderecoBase.cep endereco) k agora]) ->
              cabe_nas_colunas e).
    { intros e He. apply in_app_or in He as [He|[<-|[]]]; [auto|].
      exact (cabe_novo endereco campos _ _ _ Hv). }
    destruct (first _); exact Hnovo. }
  assert (Hput : forall e, In e (enderecos (snd (PUT_endereco_json k corpo db))) ->
                           cabe_nas_colunas e).
  { unfold PUT_endereco_json. destruct corpo as [| | | | |campos]; try exact Hdb.
    destruct (validar_EnderecoBase campos) as [endereco|] eqn:Hv; [|exact Hdb].
    unfold PUT_endereco, rota, atualizar_endereco, bind, query_endereco_first.
    destruct (first _) as [e0|]; [|exact Hdb].
    unfold update_endereco, refresh_endereco. cbn [enderecos].
    assert (Hmap : forall e,
              In e (map (set_endereco (Endereco.id e0) (EnderecoBase.rua endereco)
                           (EnderecoBase.cidade endereco) (EnderecoBase.cep endereco))
                      (enderecos db)) ->
              cabe_nas_colunas e).
    { intros e He. apply in_map_iff in He as (y & <- & Hy). unfold set_endereco.
      destruct (_ =? _); [exact (cabe_novo endereco campos _ _ _ Hv) | auto]. }
    destruct (first _); exact Hmap. }
  split; [exact Hpost|]. split; [exact Hput|].
  intros s novo db' [H|H].
  - assert (Hcabe : cabe_nas_colunas novo).
    { apply Hpost. rewrite H. cbn [snd].
      unfold POST_enderecos_json in H. destruct corpo as [| | | | |campos]; try discriminate.
      destruct (validar_EnderecoBase campos) as [endereco|]; [|discriminate].
      revert H. unfold POST_enderecos, rota.
      destruct (usuario_existe_ou_nao db k) as [Hyes|Hno];
        [|rewrite (criar_endereco_ausente db agora k endereco Hno); discriminate].
      rewrite (criar_endereco_novo db agora k endereco (seq_enderecos_acima db Hok) Hyes).
      intros [= _ <- <-]. cbn. apply in_or_app. right. now left. }
    split; [exact Hcabe|].
    unfold POST_enderecos_json in H. destruct corpo as [| | | | |campos]; try discriminate.
    destruct (validar_EnderecoBase campos) as [endereco|] eqn:Hv; [|discriminate].
    exists campos. split; [reflexivity|].
    revert H. unfold POST_enderecos, rota.
    destruct (usuario_existe_ou_nao db k) as [Hyes|Hno];
      [|rewrite (criar_endereco_ausente db agora k endereco Hno); discriminate].
    rewrite (criar_endereco_novo db agora k endereco (seq_enderecos_acima db Hok) Hyes).
    intros [= _ <- _]. cbn.
    apply validar_EnderecoBase_limites in Hv. tauto.
  - unfold PUT_endereco_json in H. destruct corpo as [| | | | |campos]; try discriminate.
    destruct (validar_EnderecoBase campos) as [endereco|] eqn:Hv; [|discriminate].
    destruct (PUT_endereco_ok _ _ _ _ _ _ H) as (_ & Href & _ & Hdb').
    unfold refresh_endereco in Href.
    destruct (first _) as [c|] eqn:E; [|discriminate]. injection Href as ->.
    apply first_filter_Some in E as [Hin Hid]. apply Z.eqb_eq in Hid.
    rewrite Hdb' in Hin. cbn in Hin. apply in_map_iff in Hin as (y & Hset & _).
    rewrite <- Hset in Hid |- *. rewrite set_endereco_id in Hid.
    unfold set_endereco. rewrite (proj2 (Z.eqb_eq _ _) Hid).
    split; [exact (cabe_novo endereco campos _ _ _ Hv)|].
    exists campos. split; [reflexivity|]. cbn.
    apply validar_EnderecoBase_limites in Hv. tauto.
Qed.

Lemma enderecos_cabem_nas_colunas_witness :
  let ana := UsuarioCreate.mk "Ana" "ana@example.com" in
  let db := executar [PostUsuarios 10 ana] bd_vazio in
  let corpo := JObj [("rua", JStr "Rua da Consolação, 1"); ("cidade", JStr "São Paulo");
                     ("cep", JStr "nº01301-00")] in
  cabe_nas_colunas
    (Endereco.mk 1 "Rua da Consolação, 1" "São Paulo" (Some "nº01301-00") 1 11) /\
  String.length "nº01301-00" = 11%nat.
Proof.
  intros ana db corpo.
  assert (Hok : bd_ok db) by apply bd_ok_executar, bd_ok_vazio.
  assert (Hdb : forall e, In e (enderecos db) -> cabe_nas_colunas e) by (intros e []).
  destruct (enderecos_cabem_nas_colunas db 11 1 corpo Hok Hdb) as (_ & _ & H).
  split; [exact (proj1 (H 201 _ _ (or_introl eq_refl))) | reflexivity].
Defined.

(** ** A new address against the deletion of its owner *)

(** Run one after the other, the two steps are the handler. *)
Lemma criar_endereco_em_serie (agora k : Z) (endereco : EnderecoBase.t) :
  criar_endereco agora k endereco =
  bind (criar_endereco_consulta k) (criar_endereco_gravacao agora k endereco).
Proof. reflexivity. Qed.

(** X17. A new address against the deletion of its owner.  In a store the
    schema allows, when the owner exists at the check of POST
    /usuarios/{id}/enderecos and DELETE /usuarios/{id} is served before the
    INSERT: the INSERT is refused by the foreign key, the caller gets HTTP
    500 (not 404), and the rows are those the DELETE left, where no address
    has that [usuario_id]; the refused INSERT has used up one address id,
    which no later address gets; and the schema's constraints hold before
    and after it: no orphan is ever stored. *)
Theorem criar_endereco_contra_delete
    (db : BD) (agora usuario_id : Z) (endereco : EnderecoBase.t)
    (usuario : option Usuario.t) :
  bd_ok db -> usuario_existe usuario_id db ->
  criar_endereco_consulta usuario_id db = (inr usuario, db) ->
  let db' := snd (DELETE_usuario usuario_id db) in
  let db'' := mkBD (usuarios db') (enderecos db') (seq_usuarios db')
                (seq_enderecos db' + 1) in
  rota 201 (criar_endereco_gravacao agora usuario_id endereco usuario) db' =
  (Erro 500 "Internal Server Error", db'') /\
  (forall e, In e (enderecos db'') -> Endereco.usuario_id e <> usuario_id) /\
  bd_ok db' /\ bd_ok db''.
Proof.
  intros Hok Hyes Hcheck db' db''.
  pose proof (DELETE_usuario_remove db usuario_id) as Hno. fold db' in Hno.
  assert (Hok' : bd_ok db') by exact (bd_ok_atender (DeleteUsuario usuario_id) db Hok).
  assert (Hu : exists u, usuario = Some u).
  { unfold criar_endereco_consulta, query_usuario_first in Hcheck.
    pose proof (usuario_por_id db usuario_id) as H.
    destruct (first _) as [u|]; [|contradiction].
    injection Hcheck as <-. now exists u. }
  destruct Hu as [u ->]. split; [|split; [|split]].
  - unfold rota, criar_endereco_gravacao, bind, insert_endereco.
    assert (Hex : existsb (fun x => Usuario.id x =? usuario_id) (usuarios db') = false).
    { apply existsb_false_first.
      pose proof (usuario_por_id db' usuario_id) as H.
      destruct (first _) as [x|]; [|reflexivity].
      exfalso. apply Hno. now exists x. }
    now rewrite Hex.
  - unfold db'', db', DELETE_usuario, rota.
    rewrite (deletar_usuario_presente db usuario_id Hyes). cbn.
    intros e He. apply filter_In in He as [_ Hne].
    now apply negb_true_iff, Z.eqb_neq in Hne.
  - exact Hok'.
  - destruct Hok' as [H1 H2 H3 H4 H5 H6].
    constructor; cbn; auto. intros e He. specialize (H6 e He). lia.
Qed.

Lemma criar_endereco_contra_delete_witness :
  let ana := UsuarioCreate.mk "Ana" "ana@example.com" in
  let casa := EnderecoBase.mk "Rua A, 1" "Recife" None in
  let db := executar [PostUsuarios 10 ana] bd_vazio in
  rota 201 (criar_endereco_gravacao 11 1 casa (Some (Usuario.mk 1 "Ana" "ana@example.com" 10)))
    (mkBD [] [] 2 1) =
  (Erro 500 "Internal Server Error", mkBD [] [] 2 2).
Proof.
  intros ana casa db.
  assert (Hok : bd_ok db) by apply bd_ok_executar, bd_ok_vazio.
  assert (Hyes : usuario_existe 1 db).
  { eexists. split; [left; reflexivity|reflexivity]. }
  exact (proj1 (criar_endereco_contra_delete db 11 1 casa _ Hok Hyes eq_refl)).
Defined.

(** ** Every address under its owner *)

(** X18. Every address under its owner.  In a store the schema allows,
    every stored address is listed by GET /usuarios/{id}/enderecos of its
    own [usuario_id], which answers 200, and by that of no other id. *)
Theorem endereco_listado_no_dono (db : BD) (e : Endereco.t) :
  bd_ok db -> In e (enderecos db) ->
  (exists es,
     GET_enderecos (Endereco.usuario_id e) db = (Ok 200 es, db) /\ In e es) /\
  (forall outro status_code es,
     outro <> Endereco.usuario_id e ->
     fst (GET_enderecos outro db) = Ok status_code es -> ~ In e es).
Proof.
  intros Hok He. split.
  - destruct (fk_enderecos db Hok e He) as (u & Hu & Hid).
    assert (Hyes : usuario_existe (Endereco.usuario_id e) db) by now exists u.
    eexists. split.
    + unfold GET_enderecos, rota.
      now rewrite (obter_enderecos_usuario_presente db _ Hyes).
    + unfold enderecos_de. apply filter_In. split; [exact He|apply Z.eqb_refl].
  - intros outro s es Hne. rewrite GET_enderecos_fst.
    destruct (first _); [|discriminate]. intros [= _ <-] Hin.
    unfold enderecos_de in Hin. apply filter_In in Hin as [_ Hid].
    apply Z.eqb_eq in Hid. congruence.
Qed.

Lemma endereco_listado_no_dono_witness :
  let ana := UsuarioCreate.mk "Ana" "ana@example.com" in
  let casa := EnderecoBase.mk "Rua A, 1" "Recife" None in
  let db := executar [PostUsuarios 10 ana; PostEnderecos 11 1 casa] bd_vazio in
  exists es, GET_enderecos 1 db = (Ok 200 es, db) /\
             In (Endereco.mk 1 "Rua A, 1" "Recife" None 1 11) es.
Proof.
  intros ana casa db.
  assert (Hok : bd_ok db) by apply bd_ok_executar, bd_ok_vazio.
  refine (proj1 (endereco_listado_no_dono db
                   (Endereco.mk 1 "Rua A, 1" "Recife" None 1 11) Hok _)).
  left. reflexivity.
Defined.

(** ** Stores the application can reach *)

Lemma ids_positivos_atender (r : Requisicao) (db : BD) :
  ids_positivos db -> ids_positivos (atender r db).
Proof.
  apply (preserva_atender ids_positivos).
  - intros agora nome email d (Hsu & Hse & Hu & He). unfold insert_usuario.
    destruct (existsb _ _); cbn; [repeat split; cbn; auto; lia|].
    repeat split; cbn; auto; [lia|].
    intros u Hin. apply in_app_or in Hin as [Hin|[<-|[]]]; [auto|cbn; lia].
  - intros k nome email d (Hsu & Hse & Hu & He). unfold update_usuario.
    destruct (existsb _ _); cbn; [unfold ids_positivos; auto|].
    repeat split; cbn; auto.
    intros u Hin. apply in_map_iff in Hin as (y & <- & Hy).
    rewrite set_usuario_id. auto.
  - intros u d (Hsu & Hse & Hu & He). repeat split; cbn; auto.
    + intros x Hx. apply filter_In in Hx as [Hx _]. auto.
    + intros x Hx. apply filter_In in Hx as [Hx _]. auto.
  - intros agora rua cidade cep k d (Hsu & Hse & Hu & He). unfold insert_endereco.
    destruct (existsb _ _); cbn; [|repeat split; cbn; auto; lia].
    repeat split; cbn; auto; [lia|].
    intros e Hin. apply in_app_or in Hin as [Hin|[<-|[]]]; [auto|cbn; lia].
  - intros k rua cidade cep d (Hsu & Hse & Hu & He). repeat split; cbn; auto.
    intros e Hin. apply in_map_iff in Hin as (y & <- & Hy).
    rewrite set_endereco_id. auto.
  - intros e d (Hsu & Hse & Hu & He). repeat split; cbn; auto.
    intros x Hx. apply filter_In in Hx as [Hx _]. auto.
Qed.

Lemma ids_positivos_executar (historia : list Requisicao) (db : BD) :
  ids_positivos db -> ids_positivos (executar historia db).
Proof.
  revert db. induction historia as [|r h IH]; intros db Hd; [exact Hd|].
  cbn. apply IH, ids_positivos_atender, Hd.
Qed.

(** X19. Stores the application can reach.  After any history of requests
    served one after the other on the empty store: no two users have the
    same email or the same id, no two addresses have the same id, every id
    lies from 1 up to below its table's counter, and the answer to a GET
    /usuarios with non-negative [skip] and [limit] holds no user twice. *)
Theorem lojas_alcancaveis (historia : list Requisicao) (skip limit : Z) :
  let db := executar historia bd_vazio in
  NoDup (map Usuario.email (usuarios db)) /\
  NoDup (map Usuario.id (usuarios db)) /\
  NoDup (map Endereco.id (enderecos db)) /\
  (forall u, In u (usuarios db) -> 1 <= Usuario.id u < seq_usuarios db) /\
  (forall e, In e (enderecos db) -> 1 <= Endereco.id e < seq_enderecos db) /\
  NoDup (map Usuario.id (itens (fst (GET_usuarios skip limit db)))).
Proof.
  intros db.
  assert (Hok : bd_ok db) by apply bd_ok_executar, bd_ok_vazio.
  assert (Hpos : ids_positivos db).
  { apply ids_positivos_executar. repeat split; cbn; try lia; intros ? []. }
  destruct Hpos as (_ & _ & Hu & He).
  split; [exact (uq_email db Hok)|].
  split; [exact (pk_usuarios db Hok)|].
  split; [exact (pk_enderecos db Hok)|].
  split; [intros u Hin; split; [auto|exact (seq_usuarios_acima db Hok u Hin)]|].
  split; [intros e Hin; split; [auto|exact (seq_enderecos_acima db Hok e Hin)]|].
  destruct (GET_usuarios_casos skip limit db) as [[_ ->]|[_ ->]]; cbn; [constructor|].
  pose proof (pk_usuarios db Hok) as Hnd.
  rewrite <- (firstn_skipn (Z.to_nat skip) (usuarios db)) in Hnd.
  rewrite map_app in Hnd. apply NoDup_app_remove_l in Hnd.
  rewrite <- (firstn_skipn (Z.to_nat limit) (skipn _ _)) in Hnd.
  rewrite map_app in Hnd. now apply NoDup_app_remove_r in Hnd.
Qed.
